(** * ig-releaser: repository synchronisation and build orchestration

    A shallow embedding of [logic.py], [ui.py] and [cli.py].  Python code
    that only computes is written as Rocq functions on strings and lists.
    Code that touches the disk, git, the network, subprocesses or the Qt
    widgets is written in a small command monad [Prog]: a program is a tree
    of commands, each command is executed atomically against a [World], and
    what the outside answers (does the clone succeed, what does the remote
    list, does the fetch finish in time) is read from an [Env] of oracles.
    Every executed command is appended to the [trace] of the world, so that
    ordering properties are statements about lists of events. *)

From Stdlib Require Import ZArith String Ascii List Lia Bool.
From stdpp Require Import base option list strings gmap pretty.

Open Scope string_scope.
Open Scope list_scope.

(** ** Python string helpers *)

Module Py.

Definition tab : ascii := Ascii.ascii_of_nat 9.
Definition lf : ascii := Ascii.ascii_of_nat 10.
Definition cr : ascii := Ascii.ascii_of_nat 13.
Definition slash : ascii := "/"%char.

(** [s.startswith(p)] *)
Fixpoint startswith (p s : string) : bool :=
  match p, s with
  | EmptyString, _ => true
  | String a p', String b s' => if Ascii.eqb a b then startswith p' s' else false
  | String _ _, EmptyString => false
  end.

(** [s.endswith("/")] *)
Fixpoint ends_with_slash (s : string) : bool :=
  match s with
  | EmptyString => false
  | String a EmptyString => Ascii.eqb a slash
  | String _ s' => ends_with_slash s'
  end.

(** [os.path.join(a, b)] of posixpath: an absolute [b] replaces [a]; a
    separator is inserted unless [a] is empty or already ends in one. *)
Definition join (a b : string) : string :=
  if startswith "/" b then b
  else if orb (String.eqb a "") (ends_with_slash a) then a +:+ b
  else a +:+ "/" +:+ b.

Definition join3 (a b c : string) : string := join (join a b) c.

(** [s.split(sep)] for a one-character separator (both call sites of the
    source split on a single character: a tab and a slash). *)
Fixpoint split (sep : ascii) (s : string) : list string :=
  match s with
  | EmptyString => [EmptyString]
  | String a s' =>
      if Ascii.eqb a sep then EmptyString :: split sep s'
      else match split sep s' with
           | h :: t => String a h :: t
           | [] => [String a EmptyString]
           end
  end.

(** [s.replace(old, new)]: every non-overlapping occurrence of [old],
    found from the left, becomes [new]. [skip] counts the characters of a
    match that are still to be dropped. *)
Fixpoint replace_aux (old new : string) (skip : nat) (s : string) : string :=
  match s with
  | EmptyString => EmptyString
  | String a s' =>
      match skip with
      | S k => replace_aux old new k s'
      | O => if startswith old s
             then new +:+ replace_aux old new (String.length old - 1) s'
             else String a (replace_aux old new 0 s')
      end
  end.

(** Both patterns of the source are non-empty; for an empty [old] Python
    inserts [new] around every character, which no call site needs. *)
Definition replace (old new s : string) : string :=
  match old with
  | EmptyString => s
  | _ => replace_aux old new 0 s
  end.

(** A text is the sequence of the bytes of its UTF-8 encoding, so a
    character outside ASCII is two to four bytes: [byte n a] says that the
    byte [a] is [n]. *)
Definition byte (n : nat) (a : ascii) : bool := (Ascii.nat_of_ascii a =? n)%nat.

(** The line boundaries of [str.splitlines] that are one byte long: LF,
    CR, VT, FF, FS, GS, RS. *)
Definition is_linebreak (a : ascii) : bool :=
  let n := Ascii.nat_of_ascii a in
  (n =? 10)%nat || (n =? 13)%nat || (n =? 11)%nat || (n =? 12)%nat
  || (n =? 28)%nat || (n =? 29)%nat || (n =? 30)%nat.

(** The number of bytes of the line boundary that [s] starts with, 0 when
    it starts with none. Besides the one-byte boundaries, CR LF counts as
    one boundary, and so do U+0085 (bytes C2 85), U+2028 and U+2029 (bytes
    E2 80 A8 and E2 80 A9). *)
Definition boundary (s : string) : nat :=
  match s with
  | EmptyString => 0
  | String a s1 =>
      if is_linebreak a then
        match s1 with
        | String b _ => if Ascii.eqb a cr && Ascii.eqb b lf then 2 else 1
        | EmptyString => 1
        end
      else
        match s1 with
        | String b s2 =>
            if byte 194 a && byte 133 b then 2
            else match s2 with
                 | String c _ =>
                     if byte 226 a && byte 128 b && (byte 168 c || byte 169 c)
                     then 3 else 0
                 | EmptyString => 0
                 end
        | EmptyString => 0
        end
  end.

(** [s.splitlines()]: lines without their terminators; a final terminator
    does not open an empty last line. [skip] counts the bytes of a
    boundary that are still to be dropped. *)
Fixpoint splitlines_aux (skip : nat) (s : string) : list string :=
  match s with
  | EmptyString => []
  | String a s' =>
      match skip with
      | S k => splitlines_aux k s'
      | O =>
          match boundary s with
          | S k => EmptyString :: splitlines_aux k s'
          | O => match splitlines_aux 0 s' with
                 | h :: t => String a h :: t
                 | [] => [String a EmptyString]
                 end
          end
      end
  end.

Definition splitlines (s : string) : list string := splitlines_aux 0 s.

(** The whitespace of [str.strip()] that is one byte long: the space,
    TAB, LF, VT, FF, CR, FS, GS, RS and US. *)
Definition is_space (a : ascii) : bool :=
  let n := Ascii.nat_of_ascii a in
  (n =? 32)%nat || ((9 <=? n)%nat && (n <=? 13)%nat)
  || ((28 <=? n)%nat && (n <=? 31)%nat).

(** The three-byte whitespace characters: U+1680 (E1 9A 80), U+2000 to
    U+200A, U+2028, U+2029 and U+202F (E2 80 80 to 8A, A8, A9, AF), U+205F
    (E2 81 9F) and U+3000 (E3 80 80). *)
Definition is_wide_space (a b c : ascii) : bool :=
  let n := Ascii.nat_of_ascii c in
  (byte 225 a && byte 154 b && byte 128 c)
  || (byte 226 a && byte 128 b
      && (((128 <=? n)%nat && (n <=? 138)%nat) || byte 168 c || byte 169 c || byte 175 c))
  || (byte 226 a && byte 129 b && byte 159 c)
  || (byte 227 a && byte 128 b && byte 128 c).

(** The number of bytes of the whitespace character that [s] starts with,
    0 when it starts with none; the two-byte ones are U+0085 and U+00A0
    (C2 85 and C2 A0). *)
Definition space (s : string) : nat :=
  match s with
  | EmptyString => 0
  | String a s1 =>
      if is_space a then 1
      else
        match s1 with
        | String b s2 =>
            if byte 194 a && (byte 133 b || byte 160 b) then 2
            else match s2 with
                 | String c _ => if is_wide_space a b c then 3 else 0
                 | EmptyString => 0
                 end
        | EmptyString => 0
        end
  end.

Fixpoint lstrip_aux (skip : nat) (s : string) : string :=
  match s with
  | EmptyString => EmptyString
  | String a s' =>
      match skip with
      | S k => lstrip_aux k s'
      | O => match space s with
             | S k => lstrip_aux k s'
             | O => s
             end
      end
  end.

Definition lstrip (s : string) : string := lstrip_aux 0 s.

(** The text holds whitespace only. *)
Fixpoint blank_aux (skip : nat) (s : string) : bool :=
  match s with
  | EmptyString => true
  | String a s' =>
      match skip with
      | S k => blank_aux k s'
      | O => match space s with
             | S k => blank_aux k s'
             | O => false
             end
      end
  end.

Definition blank (s : string) : bool := blank_aux 0 s.

Fixpoint rstrip (s : string) : string :=
  match s with
  | EmptyString => EmptyString
  | String a s' => if blank s then EmptyString else String a (rstrip s')
  end.

Definition strip (s : string) : string := rstrip (lstrip s).

(** [l[-1]] and [l[-2]]; [None] stands for IndexError. *)
Definition last1 {A} (l : list A) : option A := head (rev l).
Definition last2 {A} (l : list A) : option A := head (tail (rev l)).

End Py.


(** ** The JSON decoder

    [json.loads] of the Python standard library, as far as the program
    depends on it: which texts it accepts, and the document it returns.
    The grammar is the one of [json.decoder] and [json.scanner] in strict
    mode: whitespace is space, tab, LF and CR; [NaN], [Infinity] and
    [-Infinity] are accepted; control characters are refused inside
    strings. [None] stands for [json.JSONDecodeError]. *)

Module Json.

#[local] Set Warnings "-register-all".

Inductive value :=
| Null
| Bool (b : bool)
| Number (literal : string)
| Str (s : string)
| Array (items : list value)
| Object (members : list (string * value)).

Definition quote : ascii := Ascii.ascii_of_nat 34.
Definition backslash : ascii := Ascii.ascii_of_nat 92.

(** [quoted s] is [s] between double quotes. *)
Definition quoted (s : string) : string :=
  String quote (s +:+ String quote EmptyString).

Definition is_ws (a : ascii) : bool :=
  let n := Ascii.nat_of_ascii a in
  (n =? 32)%nat || (n =? 9)%nat || (n =? 10)%nat || (n =? 13)%nat.

Fixpoint skip_ws (s : string) : string :=
  match s with
  | String a s' => if is_ws a then skip_ws s' else s
  | EmptyString => s
  end.

Definition is_digit (a : ascii) : bool :=
  let n := Ascii.nat_of_ascii a in (48 <=? n)%nat && (n <=? 57)%nat.

Definition is_hex (a : ascii) : bool :=
  let n := Ascii.nat_of_ascii a in
  is_digit a || ((65 <=? n)%nat && (n <=? 70)%nat) || ((97 <=? n)%nat && (n <=? 102)%nat).

(** [drop_prefix p s]: the rest of [s] after the literal [p]. *)
Fixpoint drop_prefix (p s : string) : option string :=
  match p, s with
  | EmptyString, _ => Some s
  | String a p', String b s' => if Ascii.eqb a b then drop_prefix p' s' else None
  | String _ _, EmptyString => None
  end.

(** The longest run of digits at the head of [s], and the rest. *)
Fixpoint digits (s : string) : string * string :=
  match s with
  | String a s' =>
      if is_digit a then let (d, r) := digits s' in (String a d, r)
      else (EmptyString, s)
  | EmptyString => (EmptyString, s)
  end.

(** [NUMBER_RE]: an optional minus sign, then 0 or a run of digits that
    does not start with 0, then an optional fraction (a dot and digits) and
    an optional exponent (e or E, an optional sign, digits). A fraction or
    exponent that does not match is left in the rest. *)
Definition number (s : string) : option (string * string) :=
  let (sign, s1) :=
    match s with
    | String "-"%char s' => ("-", s')
    | _ => ("", s)
    end in
  match s1 with
  | String a s2 =>
      if is_digit a then
        let (int, s3) :=
          if Ascii.eqb a "0" then ("0", s2)
          else let (d, r) := digits s2 in (String a d, r) in
        let (frac, s4) :=
          match s3 with
          | String "."%char s' =>
              match digits s' with
              | (EmptyString, _) => ("", s3)
              | (d, r) => (String "." d, r)
              end
          | _ => ("", s3)
          end in
        let (exp, s5) :=
          match s4 with
          | String e s' =>
              if Ascii.eqb e "e" || Ascii.eqb e "E" then
                let (sg, s'') :=
                  match s' with
                  | String "+"%char r => ("+", r)
                  | String "-"%char r => ("-", r)
                  | _ => ("", s')
                  end in
                match digits s'' with
                | (EmptyString, _) => ("", s4)
                | (d, r) => (String e (sg +:+ d), r)
                end
              else ("", s4)
          | EmptyString => ("", s4)
          end in
        Some (sign +:+ int +:+ frac +:+ exp, s5)
      else None
  | EmptyString => None
  end.

(** [scanstring] after the opening quote: the characters up to the closing
    quote, with the one-character escapes decoded. A [\uXXXX] escape is
    checked for its four hexadecimal digits and kept as written. *)
Fixpoint scanstring (s : string) : option (string * string) :=
  match s with
  | EmptyString => None
  | String a s' =>
      if Ascii.eqb a quote then Some (EmptyString, s')
      else if (Ascii.nat_of_ascii a <? 32)%nat then None
      else if Ascii.eqb a backslash then
        match s' with
        | String e s'' =>
            let simple (c : ascii) :=
              match scanstring s'' with
              | Some (r, rest) => Some (String c r, rest)
              | None => None
              end in
            if Ascii.eqb e quote then simple quote
            else if Ascii.eqb e backslash then simple backslash
            else if Ascii.eqb e "/" then simple "/"%char
            else if Ascii.eqb e "b" then simple (Ascii.ascii_of_nat 8)
            else if Ascii.eqb e "f" then simple (Ascii.ascii_of_nat 12)
            else if Ascii.eqb e "n" then simple (Ascii.ascii_of_nat 10)
            else if Ascii.eqb e "r" then simple (Ascii.ascii_of_nat 13)
            else if Ascii.eqb e "t" then simple (Ascii.ascii_of_nat 9)
            else if Ascii.eqb e "u" then
              match s'' with
              | String h1 (String h2 (String h3 (String h4 _))) =>
                  if is_hex h1 && is_hex h2 && is_hex h3 && is_hex h4 then
                    match scanstring s'' with
                    | Some (r, rest) => Some (String backslash (String "u" r), rest)
                    | None => None
                    end
                  else None
              | _ => None
              end
            else None
        | EmptyString => None
        end
      else
        match scanstring s' with
        | Some (r, rest) => Some (String a r, rest)
        | None => None
        end
  end.

(** [scan_once], [JSONArray] and [JSONObject]. The recursion of the
    decoder follows the nesting of the text; [fuel] bounds it. *)
Fixpoint scan_once (fuel : nat) (s : string) : option (value * string) :=
  match fuel with
  | O => None
  | S f =>
      match s with
      | EmptyString => None
      | String a s' =>
          if Ascii.eqb a quote then
            match scanstring s' with
            | Some (str, rest) => Some (Str str, rest)
            | None => None
            end
          else if Ascii.eqb a "{" then
            match skip_ws s' with
            | String b rest =>
                if Ascii.eqb b "}" then Some (Object [], rest)
                else if Ascii.eqb b quote then members f rest
                else None
            | EmptyString => None
            end
          else if Ascii.eqb a "[" then
            match skip_ws s' with
            | String "]"%char rest => Some (Array [], rest)
            | s1 => items f s1
            end
          else
            match drop_prefix "null" s, drop_prefix "true" s, drop_prefix "false" s with
            | Some rest, _, _ => Some (Null, rest)
            | _, Some rest, _ => Some (Bool true, rest)
            | _, _, Some rest => Some (Bool false, rest)
            | _, _, _ =>
                match number s with
                | Some (lit, rest) => Some (Number lit, rest)
                | None =>
                    match drop_prefix "NaN" s, drop_prefix "Infinity" s,
                          drop_prefix "-Infinity" s with
                    | Some rest, _, _ => Some (Number "NaN", rest)
                    | _, Some rest, _ => Some (Number "Infinity", rest)
                    | _, _, Some rest => Some (Number "-Infinity", rest)
                    | _, _, _ => None
                    end
                end
            end
      end
  end
with items (fuel : nat) (s : string) : option (value * string) :=
  (* [s] starts at an element; whitespace before it is already skipped *)
  match fuel with
  | O => None
  | S f =>
      match scan_once f s with
      | Some (v, rest) =>
          match skip_ws rest with
          | String "]"%char rest' => Some (Array [v], rest')
          | String ","%char rest' =>
              match items f (skip_ws rest') with
              | Some (Array vs, rest'') => Some (Array (v :: vs), rest'')
              | _ => None
              end
          | _ => None
          end
      | None => None
      end
  end
with members (fuel : nat) (s : string) : option (value * string) :=
  (* [s] starts just after the opening quote of a key *)
  match fuel with
  | O => None
  | S f =>
      match scanstring s with
      | Some (key, rest) =>
          match skip_ws rest with
          | String ":"%char rest1 =>
              match scan_once f (skip_ws rest1) with
              | Some (v, rest2) =>
                  match skip_ws rest2 with
                  | String "}"%char rest3 => Some (Object [(key, v)], rest3)
                  | String ","%char rest3 =>
                      match skip_ws rest3 with
                      | String b rest4 =>
                          if Ascii.eqb b quote then
                            match members f rest4 with
                            | Some (Object ms, rest5) =>
                                Some (Object ((key, v) :: ms), rest5)
                            | _ => None
                            end
                          else None
                      | EmptyString => None
                      end
                  | _ => None
                  end
              | None => None
              end
          | _ => None
          end
      | None => None
      end
  end.

(** [json.loads(s)]: one value, surrounded by optional whitespace, and
    nothing after it. *)
Definition loads (s : string) : option value :=
  match scan_once (2 * String.length s + 2) (skip_ws s) with
  | Some (v, rest) =>
      match skip_ws rest with
      | EmptyString => Some v
      | _ => None
      end
  | None => None
  end.

End Json.

(** ** Exceptions and outcomes *)

(** The exception classes that the modelled calls raise. All of them are
    subclasses of [Exception], so [except Exception] catches each one. *)
Inductive Exn :=
| OSError                       (* also FileNotFoundError, PermissionError, shutil.Error *)
| GitError                      (* git.exc: GitCommandError, InvalidGitRepositoryError, ... *)
| TimeoutExpired                (* subprocess.TimeoutExpired *)
| RequestException              (* requests.exceptions *)
| IndexError
| JSONDecodeError                (* json.JSONDecodeError *)
| KeyError (key : string)
| ZeroDivisionError
| NameError (name : string)
| AttributeError (name : string).

Definition exn_text (e : Exn) : string :=
  match e with
  | OSError => "OSError"
  | GitError => "GitError"
  | TimeoutExpired => "TimeoutExpired"
  | RequestException => "RequestException"
  | IndexError => "list index out of range"
  | JSONDecodeError => "JSONDecodeError"
  | KeyError k => "'" +:+ k +:+ "'"
  | ZeroDivisionError => "division by zero"
  | NameError n => "name '" +:+ n +:+ "' is not defined"
  | AttributeError n => "module 'logic' has no attribute '" +:+ n +:+ "'"
  end.

Inductive Outcome (X : Type) : Type :=
| Val (x : X)
| Exc (e : Exn).
Arguments Val {X} x.
Arguments Exc {X} e.

Definition raised {X} (o : Outcome X) : option Exn :=
  match o with Val _ => None | Exc e => Some e end.

(** ** The world: disk, subprocesses, widgets, trace *)

Inductive Node :=
| Dir
| File (content : option string).   (* [None]: the file cannot be read *)

Inductive ProcStatus :=
| Running
| Exited (returncode : Z)
| Killed.

Inductive Button := DeployBuilt | DeployPrebuilt.

(** The widgets of [IGReleaseApp] that the handlers read or write. *)
Record Widgets := mkWidgets {
  ig_repo_entry : string;
  repo_fields : list (string * string);   (* a dict, in insertion order *)
  branch_items : list string;
  branch_index : option nat;              (* [None]: no current item *)
  json_editor : string;
  clean_folders_checkbox : bool;
  deploy_built_button : bool;             (* visible *)
  deploy_prebuilt_button : bool;          (* visible *)
  console_output : list string;
  progress_bar : Z;
  status_label : string
}.

Inductive WidgetOp :=
| Append (line : string)                  (* console_output.append *)
| SetValue (v : Z)                        (* progress_bar.setValue *)
| SetVisible (b : Button) (v : bool)
| SetStatus (text : string)               (* status_label.setText *)
| ComboClear
| ComboAddItems (items : list string)
| ComboSetCurrentIndex (i : nat)
| EditorSetText (text : string)
| MessageBox (critical : bool) (title text : string).

Definition apply_widget (op : WidgetOp) (u : Widgets) : Widgets :=
  match op with
  | Append line =>
      mkWidgets u.(ig_repo_entry) u.(repo_fields) u.(branch_items) u.(branch_index)
        u.(json_editor) u.(clean_folders_checkbox) u.(deploy_built_button)
        u.(deploy_prebuilt_button) (u.(console_output) ++ [line]) u.(progress_bar)
        u.(status_label)
  | SetValue v =>
      mkWidgets u.(ig_repo_entry) u.(repo_fields) u.(branch_items) u.(branch_index)
        u.(json_editor) u.(clean_folders_checkbox) u.(deploy_built_button)
        u.(deploy_prebuilt_button) u.(console_output) v u.(status_label)
  | SetVisible DeployBuilt v =>
      mkWidgets u.(ig_repo_entry) u.(repo_fields) u.(branch_items) u.(branch_index)
        u.(json_editor) u.(clean_folders_checkbox) v
        u.(deploy_prebuilt_button) u.(console_output) u.(progress_bar) u.(status_label)
  | SetVisible DeployPrebuilt v =>
      mkWidgets u.(ig_repo_entry) u.(repo_fields) u.(branch_items) u.(branch_index)
        u.(json_editor) u.(clean_folders_checkbox) u.(deploy_built_button)
        v u.(console_output) u.(progress_bar) u.(status_label)
  | SetStatus text =>
      mkWidgets u.(ig_repo_entry) u.(repo_fields) u.(branch_items) u.(branch_index)
        u.(json_editor) u.(clean_folders_checkbox) u.(deploy_built_button)
        u.(deploy_prebuilt_button) u.(console_output) u.(progress_bar) text
  | ComboClear =>
      mkWidgets u.(ig_repo_entry) u.(repo_fields) [] None
        u.(json_editor) u.(clean_folders_checkbox) u.(deploy_built_button)
        u.(deploy_prebuilt_button) u.(console_output) u.(progress_bar) u.(status_label)
  | ComboAddItems items =>
      (* a combo box that was empty selects its first new item *)
      mkWidgets u.(ig_repo_entry) u.(repo_fields) (u.(branch_items) ++ items)
        (match u.(branch_index), u.(branch_items) ++ items with
         | None, _ :: _ => Some O
         | i, _ => i
         end)
        u.(json_editor) u.(clean_folders_checkbox) u.(deploy_built_button)
        u.(deploy_prebuilt_button) u.(console_output) u.(progress_bar) u.(status_label)
  | ComboSetCurrentIndex i =>
      mkWidgets u.(ig_repo_entry) u.(repo_fields) u.(branch_items)
        (if (i <? length u.(branch_items))%nat then Some i else None)
        u.(json_editor) u.(clean_folders_checkbox) u.(deploy_built_button)
        u.(deploy_prebuilt_button) u.(console_output) u.(progress_bar) u.(status_label)
  | EditorSetText text =>
      mkWidgets u.(ig_repo_entry) u.(repo_fields) u.(branch_items) u.(branch_index)
        text u.(clean_folders_checkbox) u.(deploy_built_button)
        u.(deploy_prebuilt_button) u.(console_output) u.(progress_bar) u.(status_label)
  | MessageBox _ _ _ => u
  end.

(** The git operations of GitPython that the program calls. *)
Inductive GitOp :=
| Repo (path : string)                                   (* git.Repo(path) *)
| CloneFrom (url dest : string) (branch : option string) (* git.Repo.clone_from *)
| FetchAll (path : string)                               (* repo.git.fetch("--all") *)
| Checkout (path branch : string)                        (* repo.git.checkout(branch) *)
| AddAll (path : string)                                 (* repo.git.add("--all") *)
| Commit (path message : string)                         (* repo.index.commit(message) *)
| CreateHead (path name : string)                        (* repo.create_head(name) *)
| Push (path remote branch : string).                    (* repo.git.push(remote, branch) *)

(** The body that a started thread runs. The program starts one kind of
    thread: the closure [fetch_repos] of [fetch_all_repos]. *)
Inductive ThreadBody := FetchRepos.

Inductive Event :=
| ECall (function : string)
| EPrint (text : string)
| EWidget (op : WidgetOp)
| EMakedirs (path : string) (r : option Exn)
| ECopytree (src dst : string) (r : option Exn)
| ERead (path : string) (r : option Exn)
| EGit (op : GitOp) (r : option Exn)
| ELsRemote (flag url : string) (r : Outcome string)
| EPopen (argv : list string) (cwd : option string) (shell : bool) (r : Outcome nat)
| EWait (pid : nat) (timeout : option Z) (r : option Exn)
| EKill (pid : nat)
| EStdout (pid : nat)
| EReturncode (pid : nat) (rc : option Z)
| EHead (url : string) (r : Outcome nat)
| EJsonLoads (text : string) (ok : bool)
| ESpawn (body : ThreadBody).

Record World := mkWorld {
  fs : gmap string Node;
  procs : list ProcStatus;          (* the pid of a subprocess is its index *)
  ui : Widgets;
  trace : list Event                (* oldest first *)
}.

Definition record (e : Event) (w : World) : World :=
  mkWorld w.(fs) w.(procs) w.(ui) (w.(trace) ++ [e]).
Definition with_fs (f : gmap string Node) (w : World) : World :=
  mkWorld f w.(procs) w.(ui) w.(trace).
Definition with_procs (p : list ProcStatus) (w : World) : World :=
  mkWorld w.(fs) p w.(ui) w.(trace).
Definition with_ui (u : Widgets) (w : World) : World :=
  mkWorld w.(fs) w.(procs) u w.(trace).

(** What the outside answers. Every oracle takes the number of events
    recorded so far, so the same call can be answered differently at
    different moments of a run. *)
Record Env := mkEnv {
  os_error : nat -> string -> option Exn;          (* makedirs, copytree *)
  git_result : nat -> GitOp -> option Exn;
  ls_remote : nat -> string -> string -> Outcome string;
  popen_error : nat -> list string -> option Exn;
  exits_in_time : nat -> nat -> Z -> bool;         (* wait(timeout): pid, seconds *)
  exit_code : nat -> nat -> Z;
  stdout_lines : nat -> nat -> list string;
  head_status : nat -> string -> Outcome nat;      (* requests.head(...).status_code *)
  disk_after : nat -> gmap string Node -> gmap string Node
}.

Definition exists_on (f : gmap string Node) (p : string) : bool :=
  match f !! p with Some _ => true | None => false end.

(** The directories above [s]: for [a/b/c], [a] and [a/b]. *)
Fixpoint ancestors (acc s : string) : list string :=
  match s with
  | EmptyString => []
  | String a s' =>
      if Ascii.eqb a Py.slash
      then (if String.eqb acc "" then [] else [acc]) ++ ancestors (acc +:+ "/") s'
      else ancestors (acc +:+ String a EmptyString) s'
  end.

Definition mkdir_if_absent (p : string) (f : gmap string Node) : gmap string Node :=
  if exists_on f p then f else <[p := Dir]> f.

(** [os.makedirs(p)] when it succeeds. *)
Definition makedirs (p : string) (f : gmap string Node) : gmap string Node :=
  <[p := Dir]> (foldr mkdir_if_absent f (ancestors "" p)).

(** [shutil.copytree(src, dst, dirs_exist_ok=True)] when it succeeds:
    every entry below [src] is written at the same relative path below
    [dst]; entries of [dst] with no counterpart are kept. *)
Definition copytree (src dst : string) (f : gmap string Node) : gmap string Node :=
  foldr (fun '(p, n) acc =>
           match Json.drop_prefix (src +:+ "/") p with
           | Some rel => <[Py.join dst rel := n]> acc
           | None => acc
           end)
        (mkdir_if_absent dst f) (map_to_list f).

(** ** Commands and programs *)

Inductive Cmd : Type -> Type :=
| Enter (function : string) : Cmd unit      (* a function of logic.py is entered *)
| Print (text : string) : Cmd unit
| PathExists (path : string) : Cmd bool     (* os.path.exists *)
| Makedirs (path : string) : Cmd unit
| Copytree (src dst : string) : Cmd unit
| ReadText (path : string) : Cmd string     (* open(path).read() *)
| Git (op : GitOp) : Cmd unit
| LsRemote (flag url : string) : Cmd string (* git.cmd.Git().ls_remote(flag, url) *)
| Popen (argv : list string) (cwd : option string) (shell : bool) : Cmd nat
| Wait (pid : nat) (timeout : option Z) : Cmd unit
| Kill (pid : nat) : Cmd unit
| Stdout (pid : nat) : Cmd (list string)    (* the lines of process.stdout *)
| Returncode (pid : nat) : Cmd (option Z)
| RequestsHead (url : string) : Cmd nat
| JsonLoads (text : string) : Cmd Json.value
| Widget (op : WidgetOp) : Cmd unit
| ReadUI {X : Type} (f : Widgets -> X) : Cmd X
| Spawn (body : ThreadBody) : Cmd unit.     (* threading.Thread(...).start() *)

(** The disk as the external tools leave it at this moment. *)
Definition outside (env : Env) (w : World) : World :=
  with_fs (env.(disk_after) (length w.(trace)) w.(fs)) w.

Definition reply (r : option Exn) : Outcome unit :=
  match r with Some e => Exc e | None => Val tt end.

(** One command, executed atomically. *)
Definition exec (env : Env) {X} (c : Cmd X) (w : World) : Outcome X * World :=
  let t := length w.(trace) in
  match c in Cmd X return Outcome X * World with
  | Enter f => (Val tt, record (ECall f) w)
  | Print text => (Val tt, record (EPrint text) w)
  | PathExists p => (Val (exists_on w.(fs) p), w)
  | Makedirs p =>
      match env.(os_error) t p with
      | Some e => (Exc e, record (EMakedirs p (Some e)) w)
      | None => (Val tt, record (EMakedirs p None) (with_fs (makedirs p w.(fs)) w))
      end
  | Copytree src dst =>
      match env.(os_error) t src with
      | Some e => (Exc e, record (ECopytree src dst (Some e)) w)
      | None => (Val tt, record (ECopytree src dst None)
                           (with_fs (copytree src dst w.(fs)) w))
      end
  | ReadText p =>
      match w.(fs) !! p with
      | Some (File (Some text)) => (Val text, record (ERead p None) w)
      | _ => (Exc OSError, record (ERead p (Some OSError)) w)
      end
  | Git op =>
      let r := env.(git_result) t op in
      (reply r, record (EGit op r) (outside env w))
  | LsRemote flag url =>
      let r := env.(ls_remote) t flag url in
      (r, record (ELsRemote flag url r) w)
  | Popen argv cwd shell =>
      match env.(popen_error) t argv with
      | Some e => (Exc e, record (EPopen argv cwd shell (Exc e)) w)
      | None =>
          let pid := length w.(procs) in
          (Val pid, record (EPopen argv cwd shell (Val pid))
                      (with_procs (w.(procs) ++ [Running]) (outside env w)))
      end
  | Wait pid timeout =>
      match w.(procs) !! pid with
      | Some Running =>
          let in_time :=
            match timeout with
            | Some s => env.(exits_in_time) t pid s
            | None => true
            end in
          if in_time
          then (Val tt, record (EWait pid timeout None)
                          (with_procs (<[pid := Exited (env.(exit_code) t pid)]> w.(procs))
                             (outside env w)))
          else (Exc TimeoutExpired,
                record (EWait pid timeout (Some TimeoutExpired)) (outside env w))
      | _ => (Val tt, record (EWait pid timeout None) w)
      end
  | Kill pid =>
      let ps := match w.(procs) !! pid with
                | Some Running => <[pid := Killed]> w.(procs)
                | _ => w.(procs)
                end in
      (Val tt, record (EKill pid) (with_procs ps (outside env w)))
  | Stdout pid =>
      (Val (env.(stdout_lines) t pid), record (EStdout pid) (outside env w))
  | Returncode pid =>
      let rc := match w.(procs) !! pid with
                | Some (Exited rc) => Some rc
                | Some Killed => Some (-9)%Z
                | _ => None
                end in
      (Val rc, record (EReturncode pid rc) w)
  | RequestsHead url =>
      let r := env.(head_status) t url in
      (r, record (EHead url r) w)
  | JsonLoads text =>
      match Json.loads text with
      | Some v => (Val v, record (EJsonLoads text true) w)
      | None => (Exc JSONDecodeError, record (EJsonLoads text false) w)
      end
  | Widget op => (Val tt, record (EWidget op) (with_ui (apply_widget op w.(ui)) w))
  | ReadUI f => (Val (f w.(ui)), w)
  | Spawn body => (Val tt, record (ESpawn body) w)
  end.

(** A program: it returns, raises, or issues a command and continues with
    the outcome of that command. *)
Inductive Prog (A : Type) : Type :=
| Ret (a : A)
| Throw (e : Exn)
| Vis {X : Type} (c : Cmd X) (k : Outcome X -> Prog A).
Arguments Ret {A} a.
Arguments Throw {A} e.
Arguments Vis {A X} c k.

Fixpoint bind {A B} (p : Prog A) (f : A -> Prog B) : Prog B :=
  match p with
  | Ret a => f a
  | Throw e => Throw e
  | Vis c k => Vis c (fun o => bind (k o) f)
  end.

#[export] Instance prog_ret : MRet Prog := @Ret.
#[export] Instance prog_bind : MBind Prog := fun A B f p => bind p f.

(** A call that raises when the command does. *)
Definition call {X} (c : Cmd X) : Prog X :=
  Vis c (fun o => match o with Val x => Ret x | Exc e => Throw e end).

(** [try: p except ...: h]. The handler answers [None] for an exception
    that no [except] clause matches. *)
Fixpoint try_except {A} (p : Prog A) (h : Exn -> option (Prog A)) : Prog A :=
  match p with
  | Ret a => Ret a
  | Throw e => match h e with Some q => q | None => Throw e end
  | Vis c k => Vis c (fun o => try_except (k o) h)
  end.

(** [except Exception as e: h e] *)
Definition except_Exception {A} (h : Exn -> Prog A) : Exn -> option (Prog A) :=
  fun e => Some (h e).

(** A run of one program to its end, with no other thread in between. *)
Fixpoint run (env : Env) {A} (p : Prog A) (w : World) : Outcome A * World :=
  match p with
  | Ret a => (Val a, w)
  | Throw e => (Exc e, w)
  | Vis c k => let (o, w') := exec env c w in run env (k o) w'
  end.

(** ** logic.py *)

Module logic.

(** The names bound at the top level of logic.py: its imports, its two
    constants and its functions. A read of any other global name raises
    [NameError]; every other global that the functions below read is in
    this list, so only the read that can fail is written out. *)
Definition globals : list string :=
  ["git"; "os"; "yaml"; "json"; "requests"; "time"; "subprocess";
   "CONFIG_FILE"; "IG_SOURCE_FILE";
   "load_config"; "fetch_or_update_repo"; "get_git_branches"; "switch_to_branch";
   "load_publication_request"; "gh_pages_has_sitepreview"; "download_gh_pages";
   "deploy_built"; "deploy_prebuilt"].

Definition read_global (name : string) : Prog unit :=
  if existsb (String.eqb name) globals then Ret tt else Throw (NameError name).

(** [fetch_or_update_repo(repo_url, dest_folder, timeout=60)]. The two
    reads of [time.time()] only feed the elapsed seconds of a message and
    are left out, with that number. *)
Definition fetch_or_update_repo (repo_url dest_folder : string) (timeout : Z) : Prog bool :=
  call (Enter "fetch_or_update_repo");;
  there ← call (PathExists dest_folder);
  (if negb there then call (Makedirs dest_folder) else Ret tt);;
  try_except
    (has_git ← call (PathExists (Py.join dest_folder ".git"));
     if has_git : bool then
       call (Git (Repo dest_folder));;
       call (Print ("🔄 Fetching updates for " +:+ repo_url +:+ "..."));;
       fetch_process ← call (Popen ["git"; "fetch"; "--all"] (Some dest_folder) false);
       timed_out ←
         try_except
           (call (Wait fetch_process (Some timeout));; Ret false)
           (fun e => match e with
                     | TimeoutExpired =>
                         Some (call (Kill fetch_process);;
                               call (Print ("❌ Fetching " +:+ repo_url +:+ " timed out after "
                                            +:+ pretty timeout +:+ " seconds."));;
                               Ret true)
                     | _ => None
                     end);
       if timed_out : bool then Ret false
       else
         call (Print ("✅ Repository " +:+ repo_url +:+ " updated."));;
         Ret true
     else
       call (Print ("📥 Cloning " +:+ repo_url +:+ " into " +:+ dest_folder +:+ "..."));;
       call (Git (CloneFrom repo_url dest_folder None));;
       call (Print ("✅ Cloned " +:+ repo_url +:+ "."));;
       Ret true)
    (except_Exception (fun e =>
       call (Print ("❌ Error fetching " +:+ repo_url +:+ ": " +:+ exn_text e));;
       Ret false)).

(** [line.split(tab)[1].replace(prefix, empty)]; [None] is the IndexError of
    a line without a tab. *)
Definition ref_name (prefix line : string) : option string :=
  match Py.split Py.tab line with
  | _ :: name :: _ => Some (Py.replace prefix "" name)
  | _ => None
  end.

(** The list comprehension over [text.splitlines()]. *)
Definition ref_names (prefix text : string) : Prog (list string) :=
  match mapM (ref_name prefix) (Py.splitlines text) with
  | Some names => Ret names
  | None => Throw IndexError
  end.

Definition get_git_branches (repo_url : string) : Prog (list string) :=
  call (Enter "get_git_branches");;
  try_except
    (repo_refs ← call (LsRemote "--heads" repo_url);
     branch_list ← ref_names "refs/heads/" repo_refs;
     repo_tags ← call (LsRemote "--tags" repo_url);
     tag_list ← ref_names "refs/tags/" repo_tags;
     Ret (branch_list ++ tag_list))
    (except_Exception (fun e =>
       call (Print ("Error fetching branches/tags from " +:+ repo_url +:+ ": "
                    +:+ exn_text e));;
       Ret [])).

Definition switch_to_branch (repo_path branch : string) : Prog bool :=
  call (Enter "switch_to_branch");;
  try_except
    (call (Git (Repo repo_path));;
     call (Git (FetchAll repo_path));;
     call (Git (Checkout repo_path branch));;
     Ret true)
    (except_Exception (fun e =>
       call (Print ("Failed to switch to branch " +:+ branch +:+ ": " +:+ exn_text e));;
       Ret false)).

Definition load_publication_request (repo_path : string) : Prog string :=
  call (Enter "load_publication_request");;
  let json_path := Py.join repo_path "publication-request.json" in
  there ← call (PathExists json_path);
  if there : bool then
    try_except
      (call (ReadText json_path))
      (except_Exception (fun e =>
         call (Print ("Failed to load publication-request.json: " +:+ exn_text e));;
         Ret "{}"))
  else Ret "{}".

(** The preview URL of [gh_pages_has_sitepreview]; [None] is the
    IndexError of [repo_url.split("/")[-2]]. *)
Definition gh_pages_url (repo_url : string) : option string :=
  let parts := Py.split Py.slash repo_url in
  match Py.last1 parts, Py.last2 parts with
  | Some last, Some user_name =>
      let repo_name := Py.replace ".git" "" last in
      Some ("https://raw.githubusercontent.com/" +:+ user_name +:+ "/" +:+ repo_name
            +:+ "/gh-pages/sitepreview/index.html")
  | _, _ => None
  end.

Definition gh_pages_has_sitepreview (repo_url : string) : Prog bool :=
  call (Enter "gh_pages_has_sitepreview");;
  try_except
    (match gh_pages_url repo_url with
     | Some url =>
         status_code ← call (RequestsHead url);
         Ret (status_code =? 200)%nat
     | None => Throw IndexError
     end)
    (except_Exception (fun e =>
       call (Print ("❌ Error checking gh-pages sitepreview: " +:+ exn_text e));;
       Ret false)).

Definition download_gh_pages (repo_url work_folder : string) : Prog unit :=
  call (Enter "download_gh_pages");;
  let dest_folder := Py.join work_folder "New_IG_Source" in
  try_except
    (has_git ← call (PathExists (Py.join dest_folder ".git"));
     if has_git : bool then
       call (Git (Repo dest_folder));;
       call (Git (FetchAll dest_folder));;
       call (Git (Checkout dest_folder "gh-pages"));;
       call (Print ("✅ Downloaded gh-pages branch to " +:+ dest_folder))
     else
       call (Git (CloneFrom repo_url dest_folder (Some "gh-pages")));;
       call (Print ("✅ Cloned gh-pages branch into " +:+ dest_folder)))
    (except_Exception (fun e =>
       call (Print ("❌ Failed to clone gh-pages: " +:+ exn_text e)))).

Definition deploy_built (current_web_content : string) : Prog unit :=
  call (Enter "deploy_built");;
  call (Git (Repo current_web_content));;
  call (Git (AddAll current_web_content));;
  call (Git (Commit current_web_content "🚀 Deploying Built IG"));;
  call (Git (Push current_web_content "origin" "main"));;
  call (Print "✅ Built IG Deployed!").

Definition deploy_prebuilt (current_web_content work_folder : string) : Prog bool :=
  call (Enter "deploy_prebuilt");;
  let sitepreview_path := Py.join3 work_folder "New_IG_Source" "sitepreview" in
  there ← call (PathExists sitepreview_path);
  if negb there then
    call (Print "❌ No pre-built IG found in sitepreview.");;
    Ret false
  else
    call (Print ("📥 Copying sitepreview contents to " +:+ current_web_content +:+ "..."));;
    read_global "shutil";;
    call (Copytree sitepreview_path current_web_content);;
    call (Git (Repo current_web_content));;
    call (Git (AddAll current_web_content));;
    call (Git (Commit current_web_content "🚀 Deploying Pre-Built IG"));;
    call (Git (CreateHead current_web_content "new"));;
    call (Git (Push current_web_content "origin" "new"));;
    call (Print "✅ Pre-Built IG deployed. PR 'new' created!");;
    Ret true.

(** [logic.name], as another module reads it: an attribute that logic.py
    does not bind raises [AttributeError]. *)
Definition attribute (name : string) : Prog unit :=
  if existsb (String.eqb name) globals then Ret tt else Throw (AttributeError name).

End logic.

(** ** ui.py *)

Module ui.

(** [self.log(message)] *)
Definition log (message : string) : Prog unit :=
  call (Widget (Append message));;
  call (Print message).

(** [self.repo_fields[name].text()] *)
Definition field (name : string) : Prog string :=
  fields ← call (ReadUI repo_fields);
  match List.find (fun '(n, _) => String.eqb n name) fields with
  | Some (_, text) => Ret text
  | None => Throw (KeyError name)
  end.

(** [int((completed / total_repos) * 100)]. The source computes in
    floating point. The window has four fields, so [total_repos] is 3,
    and for 3 the integer quotient is what the source computes: 33, 66
    and 100. *)
Definition percent (completed : nat) (total_repos : Z) : Prog Z :=
  if (total_repos =? 0)%Z then Throw ZeroDivisionError
  else Ret (Z.quot (Z.of_nat completed * 100) total_repos).

(** The loop of [fetch_repos] over [self.repo_fields.items()];
    [completed] is the counter before the entry is handled. *)
Fixpoint fetch_repos_loop (names : list string) (total_repos : Z) (completed : nat)
  : Prog unit :=
  match names with
  | [] => Ret tt
  | name :: rest =>
      if String.eqb name "Work Folder" then fetch_repos_loop rest total_repos completed
      else
        repo_url ← field name;
        work_folder ← field "Work Folder";
        let dest_folder := Py.join work_folder (Py.replace " " "_" name) in
        log ("📥 Fetching " +:+ name +:+ " from " +:+ repo_url +:+ "...");;
        success ← logic.fetch_or_update_repo repo_url dest_folder 60;
        (if success : bool then log ("✅ " +:+ name +:+ " fetched successfully.")
         else log ("❌ Failed to fetch " +:+ name));;
        v ← percent (S completed) total_repos;
        call (Widget (SetValue v));;
        fetch_repos_loop rest total_repos (S completed)
  end.

(** The closure [fetch_repos], the body of the thread. *)
Definition fetch_repos : Prog unit :=
  fields ← call (ReadUI repo_fields);
  let total_repos := (Z.of_nat (length fields) - 1)%Z in
  fetch_repos_loop (map fst fields) total_repos 0;;
  call (Widget (SetStatus "✅ All repositories fetched.")).

Definition thread_body (b : ThreadBody) : Prog unit :=
  match b with FetchRepos => fetch_repos end.

(** [fetch_all_repos]: starts the thread and returns. *)
Definition fetch_all_repos : Prog unit :=
  call (Spawn FetchRepos).

Definition validate_json : Prog bool :=
  try_except
    (text ← call (ReadUI json_editor);
     let json_content := Py.strip text in
     call (JsonLoads json_content);;
     call (Widget (SetStatus "✅ JSON is valid!"));;
     log "✅ JSON is valid!";;
     call (Widget (MessageBox false "Success" "✅ Valid JSON!"));;
     Ret true)
    (fun e => match e with
              | JSONDecodeError =>
                  Some (call (Widget (SetStatus "❌ Invalid JSON!"));;
                        log ("❌ Invalid JSON: " +:+ exn_text e);;
                        call (Widget (MessageBox true "Error"
                                        ("❌ Invalid JSON: " +:+ exn_text e)));;
                        Ret false)
              | _ => None
              end).

Definition publisher_path : string := "./publisher.jar".

Definition cmd1 (source : string) : string :=
  "java -Xmx4g -jar " +:+ publisher_path +:+ " publisher -ig " +:+ source.

Definition cmd2 (source work_folder : string) : string :=
  "java -Xmx4g -jar " +:+ publisher_path +:+ " -go-publish -source " +:+ source +:+ " "
  +:+ "-web " +:+ work_folder +:+ "/Current_Web_Content -temp " +:+ work_folder
  +:+ "/Work_Folder "
  +:+ "-registry " +:+ work_folder +:+ "/IG_Registry/fhir-ig-list.json -history "
  +:+ work_folder +:+ "/History_Template "
  +:+ "-templates " +:+ work_folder +:+ "/Current_Web_Content/templates".

Fixpoint log_lines (lines : list string) : Prog unit :=
  match lines with
  | [] => Ret tt
  | line :: rest => log (Py.strip line);; log_lines rest
  end.

(** The loop of [run_publisher]; the value after the loop is [True]. *)
Fixpoint run_commands (cmds : list string) : Prog bool :=
  match cmds with
  | [] => Ret true
  | cmd :: rest =>
      process ← call (Popen [cmd] None true);
      lines ← call (Stdout process);
      log_lines lines;;
      call (Wait process None);;
      returncode ← call (Returncode process);
      match returncode with
      | Some 0%Z => run_commands rest
      | _ => Ret false
      end
  end.

Definition run_publisher (source work_folder : string) : Prog bool :=
  run_commands [cmd1 source; cmd2 source work_folder].

(** The arm of [build_ig] that is taken when the preview exists. *)
Definition prebuilt_path (ig_source work_folder : string) : Prog unit :=
  log "🌍 Downloading pre-built IG from gh-pages...";;
  logic.download_gh_pages ig_source work_folder;;
  call (Widget (SetVisible DeployPrebuilt true));;
  call (Widget (SetValue 100)).

(** The rest of [build_ig] when the preview does not exist. *)
Definition full_build_path (ig_source work_folder : string) : Prog unit :=
  log "📥 Downloading publisher.jar...";;
  (* logic.download_publisher_jar(): logic.py binds no such name, so the
     lookup raises and there is no function to call *)
  logic.attribute "download_publisher_jar";;
  call (Widget (SetValue 20));;
  log "✅ Validating JSON...";;
  valid ← validate_json;
  if negb valid then log "❌ JSON validation failed!"
  else
    call (Widget (SetValue 30));;
    log "🚀 Running IG Publisher...";;
    success ← run_publisher ig_source work_folder;
    if success : bool then
      call (Widget (SetVisible DeployBuilt true));;
      call (Widget (SetValue 100));;
      log "🎉 Build Complete!"
    else log "❌ Build Failed!".

(** [build_ig]: the common start, then one of the two arms. *)
Definition build_ig : Prog unit :=
  work_folder ← field "Work Folder";
  ig_source ← call (ReadUI ig_repo_entry);
  clean_folders ← call (ReadUI clean_folders_checkbox);
  log "📥 Fetching repositories...";;
  call (Widget (SetValue 10));;
  fetch_all_repos;;
  prebuilt ← logic.gh_pages_has_sitepreview ig_source;
  if prebuilt : bool then prebuilt_path ig_source work_folder
  else full_build_path ig_source work_folder.

Definition deploy_built : Prog unit :=
  log "🚀 Deploying Built IG...";;
  web ← field "Current Web Content";
  logic.deploy_built web.

Definition deploy_prebuilt : Prog unit :=
  log "🚀 Deploying Pre-Built IG...";;
  web ← field "Current Web Content";
  work_folder ← field "Work Folder";
  logic.deploy_prebuilt web work_folder;;
  Ret tt.

(** [branch_dropdown.currentText()] *)
Definition current_text (u : Widgets) : string :=
  match u.(branch_index) with
  | Some i => default "" (u.(branch_items) !! i)
  | None => ""
  end.

Definition on_branch_selected : Prog unit :=
  selected_branch ← call (ReadUI current_text);
  work_folder ← field "Work Folder";
  let repo_path := Py.join work_folder "New_IG_Source" in
  log ("📂 Switching to branch: " +:+ selected_branch +:+ "...");;
  success ← logic.switch_to_branch repo_path selected_branch;
  if success : bool then
    json_data ← logic.load_publication_request repo_path;
    call (Widget (EditorSetText json_data));;
    call (Widget (SetStatus ("✅ Switched to Branch: " +:+ selected_branch)));;
    log ("✅ Switched to Branch: " +:+ selected_branch)
  else
    call (Widget (SetStatus ("❌ Failed to switch to " +:+ selected_branch)));;
    log ("❌ Failed to switch to branch: " +:+ selected_branch).

(** A change of the combo box that moves its current index emits
    [currentIndexChanged], which is connected to [on_branch_selected] and
    runs it before the changing call returns. *)
Definition combo (op : WidgetOp) : Prog unit :=
  before ← call (ReadUI branch_index);
  call (Widget op);;
  after ← call (ReadUI branch_index);
  if bool_decide (before = after) then Ret tt else on_branch_selected.

Definition fetch_ig_repo : Prog unit :=
  repo_url ← call (ReadUI ig_repo_entry);
  work_folder ← field "Work Folder";
  let dest_folder := Py.join work_folder "New_IG_Source" in
  log ("📥 Fetching IG Repo from " +:+ repo_url +:+ "...");;
  success ← logic.fetch_or_update_repo repo_url dest_folder 60;
  if success : bool then
    branches ← logic.get_git_branches repo_url;
    combo ComboClear;;
    combo (ComboAddItems branches);;
    (match branches with
     | [] => Ret tt
     | _ => combo (ComboSetCurrentIndex 0)
     end);;
    call (Widget (SetStatus "✅ IG Repo Fetched Successfully"));;
    log "✅ IG Repository Fetched Successfully.";;
    prebuilt ← logic.gh_pages_has_sitepreview repo_url;
    if prebuilt : bool then
      log "🌍 Pre-built IG found in gh-pages branch. Enabling 'Deploy Pre-Built'.";;
      call (Widget (SetVisible DeployPrebuilt true))
    else Ret tt
  else
    call (Widget (SetStatus "❌ Failed to fetch IG Repo"));;
    log "❌ Failed to fetch IG Repository!".

(** The widgets as [init_ui] builds them from the two configuration
    files: both deploy buttons hidden, nothing logged. *)
Definition init_ui (ig_source work_folder history_template ig_registry web_content : string)
  : Widgets :=
  mkWidgets ig_source
    [("Work Folder", work_folder); ("History Template", history_template);
     ("IG Registry", ig_registry); ("Current Web Content", web_content)]
    [] None "" false false false [] (-1) "Status: Ready ✅".

End ui.

(** ** cli.py *)

Module cli.

Definition fetch_repo (repo_url work_folder : string) : Prog unit :=
  let dest_folder := Py.join work_folder "New_IG_Source" in
  success ← logic.fetch_or_update_repo repo_url dest_folder 60;
  if success : bool then call (Print ("✅ Successfully fetched " +:+ repo_url))
  else call (Print ("❌ Failed to fetch " +:+ repo_url)).

Fixpoint print_branches (branches : list string) : Prog unit :=
  match branches with
  | [] => Ret tt
  | branch :: rest => call (Print ("  - " +:+ branch));; print_branches rest
  end.

Definition list_branches (repo_url : string) : Prog unit :=
  branches ← logic.get_git_branches repo_url;
  match branches with
  | [] => call (Print "❌ No branches found.")
  | _ => call (Print "📂 Available branches:");; print_branches branches
  end.

Definition switch_branch (work_folder branch : string) : Prog unit :=
  let repo_path := Py.join work_folder "New_IG_Source" in
  success ← logic.switch_to_branch repo_path branch;
  if success : bool then call (Print ("✅ Switched to branch: " +:+ branch))
  else call (Print ("❌ Failed to switch to branch: " +:+ branch)).

(** [validate_json(repo_path)]; the result says whether the payload
    parsed (the source prints one of two lines and returns nothing). *)
Definition validate_json (repo_path : string) : Prog bool :=
  json_content ← logic.load_publication_request repo_path;
  try_except
    (call (JsonLoads json_content);;
     call (Print "✅ Valid JSON format");;
     Ret true)
    (fun e => match e with
              | JSONDecodeError =>
                  Some (call (Print ("❌ Invalid JSON: " +:+ exn_text e));; Ret false)
              | _ => None
              end).

End cli.

(** ** Threads

    [fetch_all_repos] starts a thread and [build_ig] goes on while that
    thread runs. A configuration holds the shared world and the rest of
    every thread: thread 0 is the handler that runs on the GUI thread, the
    others are started threads in the order of their start. A schedule
    names the thread that executes the next command. *)

Record Config := mkConfig {
  world : World;
  threads : list (Prog unit);
  events : list (nat * Event)   (* the events of the run, each with its thread *)
}.

Definition start (handler : Prog unit) (w : World) : Config :=
  mkConfig w [handler] [].

Definition spawned {X} (c : Cmd X) : list (Prog unit) :=
  match c with
  | Spawn body => [ui.thread_body body]
  | _ => []
  end.

(** The events that lead from [w] to [w']. *)
Definition added (w w' : World) : list Event :=
  drop (length w.(trace)) w'.(trace).

(** Thread [tid] executes one command; a thread that has returned or
    raised, and a thread that does not exist, do nothing. *)
Definition step (env : Env) (cfg : Config) (tid : nat) : Config :=
  match cfg.(threads) !! tid with
  | Some (Vis c k) =>
      let (o, w') := exec env c cfg.(world) in
      mkConfig w'
        (<[tid := k o]> cfg.(threads) ++ spawned c)
        (cfg.(events) ++ map (pair tid) (added cfg.(world) w'))
  | _ => cfg
  end.

Definition schedule (env : Env) (sched : list nat) (cfg : Config) : Config :=
  foldl (step env) cfg sched.

(** The events of thread [tid], in order. *)
Definition own (tid : nat) (evs : list (nat * Event)) : list Event :=
  map snd (List.filter (fun te => (te.1 =? tid)%nat) evs).

(** ** Observations on traces *)

(** The values given to [progress_bar.setValue], in order. *)
Definition progress_values (tr : list Event) : list Z :=
  omap (fun e => match e with EWidget (SetValue v) => Some v | _ => None end) tr.

Fixpoint non_decreasing (l : list Z) : bool :=
  match l with
  | a :: (b :: _) as rest => (a <=? b)%Z && non_decreasing rest
  | _ => true
  end.

(** The publisher tool is started: [run_publisher] is the one place that
    starts a subprocess through the shell. *)
Definition is_publisher (e : Event) : bool :=
  match e with
  | EPopen _ _ true _ => true
  | _ => false
  end.

Definition is_call (f : string) (e : Event) : bool :=
  match e with
  | ECall g => String.eqb f g
  | _ => false
  end.

(** The deploy operations of logic.py. *)
Definition is_deploy (e : Event) : bool :=
  is_call "deploy_built" e || is_call "deploy_prebuilt" e.

(** The preview probe is answered with status 200. *)
Definition is_preview_found (e : Event) : bool :=
  match e with
  | EHead _ (Val status_code) => (status_code =? 200)%nat
  | _ => false
  end.

Definition is_head (e : Event) : bool :=
  match e with EHead _ _ => true | _ => false end.

Definition is_progress (e : Event) : bool :=
  match e with EWidget (SetValue _) => true | _ => false end.

Definition is_visibility (e : Event) : bool :=
  match e with EWidget (SetVisible _ _) => true | _ => false end.

Definition is_validation (e : Event) : bool :=
  match e with EJsonLoads _ _ => true | _ => false end.

Definition is_spawn (e : Event) : bool :=
  match e with ESpawn _ => true | _ => false end.

(** An event of the plumbing: a git or disk operation, a print, a log
    line, a status text; none of the events that the properties below
    single out. *)
Definition quiet (e : Event) : bool :=
  negb (is_publisher e || is_deploy e || is_head e || is_progress e
        || is_visibility e || is_validation e || is_spawn e).

Definition is_git (e : Event) : bool :=
  match e with EGit _ _ => true | _ => false end.

(** The git operations that bring the branch gh-pages of [url] into
    [dest]: one clone of that branch; or, in an existing clone, the
    opening of the repository, a fetch and the checkout of the branch. An
    operation that raises is the last one. *)
Definition preview_fetch (url dest : string) (l : list Event) : Prop :=
  (exists r, l = [EGit (CloneFrom url dest (Some "gh-pages")) r])
  \/ (exists r, l = [EGit (Repo dest) None; EGit (FetchAll dest) None;
                     EGit (Checkout dest "gh-pages") r])
  \/ (exists e, l = [EGit (Repo dest) None; EGit (FetchAll dest) (Some e)])
  \/ (exists e, l = [EGit (Repo dest) (Some e)]).

(** The stages of a build after the probe: the validation of the manifest
    and the starts of the publisher. *)
Definition is_stage (e : Event) : bool :=
  is_validation e || is_publisher e.

(** ** What a program can do *)

(** Every event that the command can add satisfies [Q]. *)
Definition emits (Q : Event -> Prop) {X} (c : Cmd X) : Prop :=
  forall env w e, e ∈ added w (exec env c w).2 -> Q e.

(** On every path of the program, every command only adds events that
    satisfy [Q]. *)
Fixpoint only (Q : Event -> Prop) {A} (p : Prog A) : Prop :=
  match p with
  | Ret _ | Throw _ => True
  | Vis c k => emits Q c /\ forall o, only Q (k o)
  end.

(** The value that the command gives to the progress bar. *)
Definition progress_of {X} (c : Cmd X) : option Z :=
  match c with
  | Widget (SetValue v) => Some v
  | _ => None
  end.

Definition at_least (lo : option Z) (v : Z) : Prop :=
  match lo with Some l => (l <= v)%Z | None => True end.

(** On every path of the program, the values given to the progress bar
    never go down, starting from [lo]. *)
Fixpoint rising (lo : option Z) {A} (p : Prog A) : Prop :=
  match p with
  | Ret _ | Throw _ => True
  | Vis c k =>
      match progress_of c with
      | Some v => at_least lo v /\ forall o, rising (Some v) (k o)
      | None => forall o, rising lo (k o)
      end
  end.

(** ** Sessions

    The user presses buttons one after the other; each press runs its
    handler on the GUI thread. A hidden button cannot be pressed. An
    exception that leaves a handler ends the application. *)

Inductive Action :=
| PressFetchIG
| PressFetchAll
| PressValidate
| PressBuild
| PressDeployBuilt
| PressDeployPrebuilt.

Definition handler (a : Action) : Prog unit :=
  match a with
  | PressFetchIG => ui.fetch_ig_repo
  | PressFetchAll => ui.fetch_all_repos
  | PressValidate => ui.validate_json;; Ret tt
  | PressBuild => ui.build_ig
  | PressDeployBuilt => ui.deploy_built
  | PressDeployPrebuilt => ui.deploy_prebuilt
  end.

Definition pressable (a : Action) (u : Widgets) : bool :=
  match a with
  | PressDeployBuilt => u.(deploy_built_button)
  | PressDeployPrebuilt => u.(deploy_prebuilt_button)
  | _ => true
  end.

Fixpoint session (env : Env) (actions : list Action) (w : World) : World :=
  match actions with
  | [] => w
  | a :: rest =>
      if pressable a w.(ui) then
        match run env (handler a) w with
        | (Val _, w') => session env rest w'
        | (Exc _, w') => w'
        end
      else session env rest w
  end.

Definition is_build (a : Action) : bool :=
  match a with PressBuild => true | _ => false end.

(** The number of build runs in a session. *)
Definition builds (actions : list Action) : nat :=
  length (List.filter is_build actions).


(** ** The log lines of a subprocess *)

(** The world after [self.log(message)]. *)
Definition logged (message : string) (w : World) : World :=
  record (EPrint message)
    (record (EWidget (Append message))
       (with_ui (apply_widget (Append message) w.(ui)) w)).

Definition log_events (lines : list string) : list Event :=
  flat_map (fun line => [EWidget (Append (Py.strip line)); EPrint (Py.strip line)]) lines.

Definition appended (lines : list string) (u : Widgets) : Widgets :=
  foldl (fun u line => apply_widget (Append (Py.strip line)) u) u lines.

(** The world after [log_lines lines]. *)
Definition after_logs (lines : list string) (w : World) : World :=
  mkWorld w.(fs) w.(procs) (appended lines w.(ui)) (w.(trace) ++ log_events lines).

(** ** A concrete environment and disk, for running the model *)

(** Every external call succeeds, subprocesses exit with 0 in time, the
    remote lists nothing, the preview URL answers 404, and the tools
    leave the disk as it is. *)
Definition calm : Env :=
  mkEnv (fun _ _ => None) (fun _ _ => None) (fun _ _ _ => Val "")
        (fun _ _ => None) (fun _ _ _ => true) (fun _ _ => 0%Z) (fun _ _ => [])
        (fun _ _ => Val 404%nat) (fun _ f => f).

Definition app0 : Widgets :=
  ui.init_ui "https://github.com/acme/ig" "w" "https://github.com/acme/history"
    "https://github.com/acme/registry" "https://github.com/acme/web".

Definition world0 (f : gmap string Node) : World := mkWorld f [] app0 [].

(** A work folder [w] in which the web-content repository is cloned. *)
Definition disk_web : gmap string Node :=
  <["w/Current_Web_Content" := Dir]> (<["w/Current_Web_Content/.git" := Dir]> ∅).

(** The same, with the preview branch of the IG source checked out and a
    [sitepreview] folder in it. *)
Definition disk_preview : gmap string Node :=
  <["w/New_IG_Source" := Dir]>
    (<["w/New_IG_Source/.git" := Dir]>
       (<["w/New_IG_Source/sitepreview" := Dir]>
          (<["w/New_IG_Source/sitepreview/index.html" := File (Some "<html/>")]>
             disk_web))).

(** A remote that never answers the fetch: the subprocess is still
    running when the timeout is over. *)
Definition stalled : Env :=
  mkEnv (fun _ _ => None) (fun _ _ => None) (fun _ _ _ => Val "")
        (fun _ _ => None) (fun _ _ _ => false) (fun _ _ => 0%Z) (fun _ _ => [])
        (fun _ _ => Val 404%nat) (fun _ f => f).

(** A remote that cannot be reached: every git operation fails. *)
Definition offline : Env :=
  mkEnv (fun _ _ => None) (fun _ _ => Some GitError) (fun _ _ _ => Exc GitError)
        (fun _ _ => None) (fun _ _ _ => true) (fun _ _ => 0%Z) (fun _ _ => [])
        (fun _ _ => Exc RequestException) (fun _ f => f).

(** ** Remote listings

    The text that [git ls-remote] prints: one line per ref, the object
    name, a tab, the full ref name; lines are separated by LF. *)

Module Remote.

Fixpoint all_chars (P : ascii -> bool) (s : string) : bool :=
  match s with
  | EmptyString => true
  | String a s' => P a && all_chars P s'
  end.

Definition no_tab (s : string) : bool :=
  all_chars (fun a => negb (Ascii.eqb a Py.tab)) s.

(** No line boundary of [str.splitlines] starts anywhere in [s]. *)
Fixpoint one_line (s : string) : bool :=
  match s with
  | EmptyString => true
  | String _ s' => (Py.boundary s =? 0)%nat && one_line s'
  end.

(** ASCII only, and neither a tab nor a line boundary. *)
Definition plain (s : string) : bool :=
  all_chars (fun a => (Ascii.nat_of_ascii a <? 128)%nat
                      && negb (Py.is_linebreak a) && negb (Ascii.eqb a Py.tab)) s.

(** [p] occurs somewhere in [s]. *)
Fixpoint occurs (p s : string) : bool :=
  match s with
  | EmptyString => false
  | String _ s' => Py.startswith p s || occurs p s'
  end.

Definition line (prefix : string) (entry : string * string) : string :=
  entry.1 +:+ String Py.tab (prefix +:+ entry.2).

Fixpoint listing (prefix : string) (entries : list (string * string)) : string :=
  match entries with
  | [] => EmptyString
  | [e] => line prefix e
  | e :: rest => line prefix e +:+ String Py.lf (listing prefix rest)
  end.

(** An entry (object name, short name) as a remote lists it: neither part
    holds a tab or a line break, and the short name does not repeat the
    prefix of its ref kind. *)
Definition clean (prefix : string) (entry : string * string) : bool :=
  no_tab entry.1 && one_line entry.1 && no_tab entry.2 && one_line entry.2
  && negb (occurs prefix entry.2).

End Remote.

(** No character of the text is a slash. *)
Definition no_slash (s : string) : bool :=
  Remote.all_chars (fun a => negb (Ascii.eqb a Py.slash)) s.

(** A remote with two branches and two tags; one tag has the name of a
    branch. *)
Definition heads0 : list (string * string) :=
  [("1a2b3c", "main"); ("4d5e6f", "feature/x")].
Definition tags0 : list (string * string) :=
  [("7a8b9c", "v1.0"); ("1a2b3c", "main")].

Definition listed : Env :=
  mkEnv (fun _ _ => None) (fun _ _ => None)
        (fun _ flag _ =>
           if String.eqb flag "--heads" then Val (Remote.listing "refs/heads/" heads0)
           else Val (Remote.listing "refs/tags/" tags0))
        (fun _ _ => None) (fun _ _ _ => true) (fun _ _ => 0%Z) (fun _ _ => [])
        (fun _ _ => Val 404%nat) (fun _ f => f).

(** U+2028, the line separator, as its three bytes. *)
Definition line_separator : string :=
  String (Ascii.ascii_of_nat 226)
    (String (Ascii.ascii_of_nat 128) (String (Ascii.ascii_of_nat 168) "")).

(** U+2003, the em space, as its three bytes. *)
Definition em_space : string :=
  String (Ascii.ascii_of_nat 226)
    (String (Ascii.ascii_of_nat 128) (String (Ascii.ascii_of_nat 131) "")).

(** A remote with the one branch [name] and no tag. *)
Definition one_branch (name : string) : Env :=
  mkEnv (fun _ _ => None) (fun _ _ => None)
        (fun _ flag _ =>
           if String.eqb flag "--heads"
           then Val (Remote.listing "refs/heads/" [("1a2b3c", name)])
           else Val "")
        (fun _ _ => None) (fun _ _ _ => true) (fun _ _ => 0%Z) (fun _ _ => [])
        (fun _ _ => Val 404%nat) (fun _ f => f).

(** The preview exists: the probe is answered with 200. *)
Definition preview : Env :=
  mkEnv (fun _ _ => None) (fun _ _ => None) (fun _ _ _ => Val "")
        (fun _ _ => None) (fun _ _ _ => true) (fun _ _ => 0%Z) (fun _ _ => [])
        (fun _ _ => Val 200%nat) (fun _ f => f).

(** A deploy button is hidden. *)
Definition is_hide (e : Event) : bool :=
  match e with EWidget (SetVisible _ false) => true | _ => false end.

Definition visible (b : Button) (u : Widgets) : bool :=
  match b with
  | DeployBuilt => u.(deploy_built_button)
  | DeployPrebuilt => u.(deploy_prebuilt_button)
  end.

(** The window as [init_ui] leaves it: nothing has happened yet and
    both deploy buttons are hidden. *)
Definition fresh (w : World) : Prop :=
  w.(trace) = [] /\ visible DeployBuilt w.(ui) = false
  /\ visible DeployPrebuilt w.(ui) = false.

Definition same_button (a b : Button) : bool :=
  match a, b with
  | DeployBuilt, DeployBuilt | DeployPrebuilt, DeployPrebuilt => true
  | _, _ => false
  end.

(** The deploy button [b] is made visible. *)
Definition shows (b : Button) (e : Event) : bool :=
  match e with
  | EWidget (SetVisible b' true) => same_button b b'
  | _ => false
  end.

(** The preview is there when the source repository is fetched and the
    probe of the build raises; the remote lists two branches and two
    tags. *)
Definition lost : Env :=
  mkEnv (fun _ _ => None) (fun _ _ => None)
        (fun _ flag _ =>
           if String.eqb flag "--heads" then Val (Remote.listing "refs/heads/" heads0)
           else Val (Remote.listing "refs/tags/" tags0))
        (fun _ _ => None) (fun _ _ _ => true) (fun _ _ => 0%Z) (fun _ _ => [])
        (fun t _ => if (t <? 32)%nat then Val 200%nat else Exc RequestException)
        (fun _ f => f).

(** The repository fields of the window are fetched by the thread while
    the handler of the build goes on: here the handler runs to its end
    first. *)
Definition handler_first : list nat := repeat 0%nat 40 ++ repeat 1%nat 200.

(** Every thread of the configuration has written non-decreasing values
    to the progress bar, and what is left of it goes on from its last
    value without going down; a thread that does not exist yet has no
    event. *)
Definition rising_threads (cfg : Config) : Prop :=
  forall tid,
    let written := progress_values (own tid cfg.(events)) in
    match cfg.(threads) !! tid with
    | Some q => rising (last written) q /\ non_decreasing written = true
    | None => own tid cfg.(events) = []
    end.

(** * Checks and theorems *)

(** ** Python helpers on concrete inputs *)

Example split_tab :
  Py.split Py.tab ("abc" +:+ String Py.tab "refs/heads/main") = ["abc"; "refs/heads/main"].
Proof. reflexivity. Qed.
Example replace_all : Py.replace "refs/heads/" "" "refs/heads/a/refs/heads/b" = "a/b".
Proof. reflexivity. Qed.
Example splitlines_ex :
  Py.splitlines ("a" +:+ String Py.lf ("b" +:+ String Py.cr (String Py.lf "")))
  = ["a"; "b"].
Proof. reflexivity. Qed.
Example replace_spaces : Py.replace " " "_" "Current Web Content" = "Current_Web_Content".
Proof. reflexivity. Qed.
Example strip_ex : Py.strip "  {} " = "{}".
Proof. reflexivity. Qed.
Example strip_unicode : Py.strip (em_space +:+ "{}" +:+ line_separator) = "{}".
Proof. reflexivity. Qed.
Example strip_inner : Py.strip ("a" +:+ em_space +:+ "b ") = "a" +:+ em_space +:+ "b".
Proof. reflexivity. Qed.
Example splitlines_unicode :
  Py.splitlines ("rel" +:+ line_separator +:+ "ease") = ["rel"; "ease"].
Proof. reflexivity. Qed.
Example join_ex : Py.join3 "w" "New_IG_Source" "sitepreview" = "w/New_IG_Source/sitepreview".
Proof. reflexivity. Qed.

(** ** The JSON decoder on concrete inputs *)


Example loads_empty_object : Json.loads "{}" = Some (Json.Object []).
Proof. reflexivity. Qed.
Example loads_empty_text : Json.loads "" = None.
Proof. reflexivity. Qed.
Example loads_truncated :
  Json.loads ("{" +:+ Json.quoted "tool" +:+ ":" +:+ Json.quoted "ig-publisher") = None.
Proof. reflexivity. Qed.
Example loads_nested :
  Json.loads (" {" +:+ Json.quoted "a" +:+ ": [1, -2.5e3, true, null, {" +:+ Json.quoted "b" +:+ ": "
              +:+ Json.quoted "x\ny" +:+ "}], " +:+ Json.quoted "c" +:+ ": {} } ")
  = Some (Json.Object
            [("a", Json.Array [Json.Number "1"; Json.Number "-2.5e3"; Json.Bool true;
                               Json.Null;
                               Json.Object [("b", Json.Str ("x" +:+ String Py.lf "y"))]]);
             ("c", Json.Object [])]).
Proof. vm_compute. reflexivity. Qed.
Example loads_trailing_comma : Json.loads "[1,]" = None.
Proof. reflexivity. Qed.
Example loads_extra_data : Json.loads "{} {}" = None.
Proof. reflexivity. Qed.

(** ** Running programs *)

Lemma run_bind env {A B} (p : Prog A) (f : A -> Prog B) w :
  run env (bind p f) w =
  match run env p w with
  | (Val a, w') => run env (f a) w'
  | (Exc e, w') => (Exc e, w')
  end.
Proof.
  revert w. induction p as [a|e|X c k IH]; intros w; simpl; try reflexivity.
  destruct (exec env c w) as [o w']. apply IH.
Qed.

(** ** Python string functions on remote listings *)

Arguments Py.is_linebreak : simpl never.

Section StringLemmas.

Lemma split_no_sep sep s :
  Remote.all_chars (fun a => negb (Ascii.eqb a sep)) s = true ->
  Py.split sep s = [s].
Proof.
  induction s as [|a s IH]; simpl; [reflexivity|].
  intros [Ha Hs]%andb_prop. apply negb_true_iff in Ha. rewrite Ha.
  now rewrite (IH Hs).
Qed.

Lemma split_at_sep sep a b :
  Remote.all_chars (fun c => negb (Ascii.eqb c sep)) a = true ->
  Py.split sep (a +:+ String sep b) = a :: Py.split sep b.
Proof.
  induction a as [|c a IH]; simpl.
  - intros _. now rewrite Ascii.eqb_refl.
  - intros [Hc Ha]%andb_prop. apply negb_true_iff in Hc. rewrite Hc.
    now rewrite (IH Ha).
Qed.

Lemma startswith_append p s : Py.startswith p (p +:+ s) = true.
Proof. induction p as [|a p IH]; simpl; [reflexivity|]. now rewrite Ascii.eqb_refl. Qed.

Lemma replace_aux_skip old new x s :
  Py.replace_aux old new (String.length x) (x +:+ s) = Py.replace_aux old new 0 s.
Proof. induction x as [|a x IH]; simpl; [reflexivity | exact IH]. Qed.

Lemma replace_aux_absent old new s :
  Remote.occurs old s = false -> Py.replace_aux old new 0 s = s.
Proof.
  induction s as [|a s IH]; [reflexivity|].
  intros H. change (Remote.occurs old (String a s))
    with (Py.startswith old (String a s) || Remote.occurs old s) in H.
  apply orb_false_elim in H as [H1 H2].
  change (Py.replace_aux old new 0 (String a s))
    with (if Py.startswith old (String a s)
          then new +:+ Py.replace_aux old new (String.length old - 1) s
          else String a (Py.replace_aux old new 0 s)).
  rewrite H1. now rewrite (IH H2).
Qed.

(** Removing a prefix in front of a name that does not hold it again
    gives the name. *)
Lemma replace_prefix prefix name :
  prefix <> "" -> Remote.occurs prefix name = false ->
  Py.replace prefix "" (prefix +:+ name) = name.
Proof.
  intros Hne Hocc. destruct prefix as [|a p]; [congruence|].
  unfold Py.replace.
  change (String a p +:+ name) with (String a (p +:+ name)).
  change (Py.replace_aux (String a p) "" 0 (String a (p +:+ name)))
    with (if Py.startswith (String a p) (String a (p +:+ name))
          then "" +:+ Py.replace_aux (String a p) "" (String.length (String a p) - 1)
                        (p +:+ name)
          else String a (Py.replace_aux (String a p) "" 0 (p +:+ name))).
  change (String a (p +:+ name)) with (String a p +:+ name).
  rewrite startswith_append.
  replace (String.length (String a p) - 1) with (String.length p) by (simpl; lia).
  change ("" +:+ ?x) with x. rewrite replace_aux_skip.
  now apply replace_aux_absent.
Qed.

Lemma ref_name_line prefix entry :
  prefix <> "" -> Remote.no_tab prefix = true -> Remote.clean prefix entry = true ->
  logic.ref_name prefix (Remote.line prefix entry) = Some entry.2.
Proof.
  intros Hne Hp. unfold Remote.clean.
  intros [[[[H1 _]%andb_prop H2]%andb_prop _]%andb_prop H3%negb_true_iff]%andb_prop.
  unfold logic.ref_name, Remote.line.
  rewrite split_at_sep by exact H1.
  rewrite split_no_sep.
  - now rewrite replace_prefix.
  - clear -Hp H2. induction prefix as [|a p IH]; simpl; [exact H2|].
    simpl in Hp. apply andb_prop in Hp as [Ha Hp]. rewrite Ha. now apply IH.
Qed.

Lemma byte_ascii n c :
  (128 <= n)%nat -> (Ascii.nat_of_ascii c <? 128)%nat = true -> Py.byte n c = false.
Proof.
  intros Hn Hc%Nat.ltb_lt. unfold Py.byte. apply Nat.eqb_neq. lia.
Qed.

(** A boundary does not start in a text that is followed by an ASCII
    character, unless it starts in the text alone. *)
Lemma boundary_app a c b :
  a <> "" -> Py.boundary a = 0%nat -> (Ascii.nat_of_ascii c <? 128)%nat = true ->
  Py.boundary (a +:+ String c b) = 0%nat.
Proof.
  intros Hne H Hc. destruct a as [|x a1]; [congruence|].
  pose proof (byte_ascii 133 c ltac:(lia) Hc) as H133.
  pose proof (byte_ascii 128 c ltac:(lia) Hc) as H128.
  pose proof (byte_ascii 168 c ltac:(lia) Hc) as H168.
  pose proof (byte_ascii 169 c ltac:(lia) Hc) as H169.
  change (String x a1 +:+ String c b) with (String x (a1 +:+ String c b)).
  unfold Py.boundary in *.
  destruct (Py.is_linebreak x).
  { destruct a1 as [|y a2]; [discriminate H|].
    destruct (Ascii.eqb x Py.cr && Ascii.eqb y Py.lf); discriminate H. }
  destruct a1 as [|y a2].
  - change ("" +:+ String c b) with (String c b). cbv beta iota.
    rewrite H133, H128, !andb_false_r. cbv beta iota. now destruct b.
  - change (String y a2 +:+ String c b) with (String y (a2 +:+ String c b)).
    cbv beta iota in *.
    destruct (Py.byte 194 x && Py.byte 133 y); [discriminate H|].
    destruct a2 as [|z a3].
    + change ("" +:+ String c b) with (String c b). cbv beta iota.
      now rewrite H168, H169, orb_false_r, !andb_false_r.
    + exact H.
Qed.

Lemma splitlines_one_line s :
  s <> "" -> Remote.one_line s = true -> Py.splitlines s = [s].
Proof.
  unfold Py.splitlines.
  induction s as [|a s IH]; [congruence|]. intros _.
  change (Remote.one_line (String a s))
    with ((Py.boundary (String a s) =? 0)%nat && Remote.one_line s).
  intros [Ha%Nat.eqb_eq Hs]%andb_prop.
  change (Py.splitlines_aux 0 (String a s))
    with (match Py.boundary (String a s) with
          | S k => "" :: Py.splitlines_aux k s
          | O => match Py.splitlines_aux 0 s with
                 | h :: t => String a h :: t
                 | [] => [String a ""]
                 end
          end).
  rewrite Ha. destruct s as [|b s]; [reflexivity|].
  now rewrite IH.
Qed.

Lemma splitlines_first s rest :
  Remote.one_line s = true ->
  Py.splitlines (s +:+ String Py.lf rest) = s :: Py.splitlines rest.
Proof.
  unfold Py.splitlines.
  induction s as [|a s IH].
  - intros _. change ("" +:+ String Py.lf rest) with (String Py.lf rest).
    now destruct rest.
  - change (Remote.one_line (String a s))
      with ((Py.boundary (String a s) =? 0)%nat && Remote.one_line s).
    intros [Ha%Nat.eqb_eq Hs]%andb_prop.
    change (String a s +:+ String Py.lf rest) with (String a (s +:+ String Py.lf rest)).
    change (Py.splitlines_aux 0 (String a (s +:+ String Py.lf rest)))
      with (match Py.boundary (String a (s +:+ String Py.lf rest)) with
            | S k => "" :: Py.splitlines_aux k (s +:+ String Py.lf rest)
            | O => match Py.splitlines_aux 0 (s +:+ String Py.lf rest) with
                   | h :: t => String a h :: t
                   | [] => [String a ""]
                   end
            end).
    change (String a (s +:+ String Py.lf rest)) with (String a s +:+ String Py.lf rest).
    rewrite boundary_app by (done || reflexivity).
    now rewrite (IH Hs).
Qed.

Lemma all_chars_append P a b :
  Remote.all_chars P a = true -> Remote.all_chars P b = true ->
  Remote.all_chars P (a +:+ b) = true.
Proof.
  induction a as [|c a IH]; simpl; [auto|].
  intros [Hc Ha]%andb_prop Hb. rewrite Hc. now apply IH.
Qed.

(** A text without a boundary stays so before an ASCII character that is
    not one. *)
Lemma one_line_app a c b :
  Remote.one_line a = true -> (Ascii.nat_of_ascii c <? 128)%nat = true ->
  Remote.one_line (String c b) = true ->
  Remote.one_line (a +:+ String c b) = true.
Proof.
  intros Ha Hc Hb. induction a as [|x a IH]; [exact Hb|].
  change (Remote.one_line (String x a))
    with ((Py.boundary (String x a) =? 0)%nat && Remote.one_line a) in Ha.
  apply andb_prop in Ha as [Hx%Nat.eqb_eq Ha].
  change (Remote.one_line (String x a +:+ String c b))
    with ((Py.boundary (String x a +:+ String c b) =? 0)%nat
          && Remote.one_line (a +:+ String c b)).
  rewrite boundary_app by (done || assumption).
  now rewrite (IH Ha).
Qed.

Lemma boundary_ascii x s :
  (Ascii.nat_of_ascii x <? 128)%nat = true -> Py.is_linebreak x = false ->
  Py.boundary (String x s) = 0%nat.
Proof.
  intros Hx Hl. unfold Py.boundary. rewrite Hl.
  rewrite (byte_ascii 194 x), (byte_ascii 226 x) by (lia || exact Hx).
  destruct s as [|y [|z r]]; reflexivity.
Qed.

Lemma plain_one_line p s :
  Remote.plain p = true -> Remote.one_line s = true -> Remote.one_line (p +:+ s) = true.
Proof.
  intros Hp Hs. induction p as [|x p IH]; [exact Hs|].
  change (Remote.plain (String x p))
    with (((Ascii.nat_of_ascii x <? 128)%nat && negb (Py.is_linebreak x)
           && negb (Ascii.eqb x Py.tab)) && Remote.plain p) in Hp.
  apply andb_prop in Hp as [[[Hx Hl%negb_true_iff]%andb_prop _]%andb_prop Hp].
  change (Remote.one_line (String x p +:+ s))
    with ((Py.boundary (String x (p +:+ s)) =? 0)%nat && Remote.one_line (p +:+ s)).
  rewrite (IH Hp), andb_true_r. apply Nat.eqb_eq.
  now apply boundary_ascii.
Qed.

Lemma plain_no_tab p : Remote.plain p = true -> Remote.no_tab p = true.
Proof.
  induction p as [|x p IH]; [reflexivity|].
  change (Remote.plain (String x p))
    with (((Ascii.nat_of_ascii x <? 128)%nat && negb (Py.is_linebreak x)
           && negb (Ascii.eqb x Py.tab)) && Remote.plain p).
  change (Remote.no_tab (String x p))
    with (negb (Ascii.eqb x Py.tab) && Remote.no_tab p).
  intros [[_ Hx]%andb_prop Hp]%andb_prop. rewrite Hx. now apply IH.
Qed.

Lemma line_one_line prefix entry :
  Remote.plain prefix = true -> Remote.clean prefix entry = true ->
  Remote.one_line (Remote.line prefix entry) = true.
Proof.
  intros Hp. unfold Remote.clean.
  intros [[[[_ H1]%andb_prop _]%andb_prop H2]%andb_prop _]%andb_prop.
  unfold Remote.line. apply one_line_app; [exact H1|reflexivity|].
  change (Remote.one_line (String Py.tab (prefix +:+ entry.2)))
    with ((Py.boundary (String Py.tab (prefix +:+ entry.2)) =? 0)%nat
          && Remote.one_line (prefix +:+ entry.2)).
  rewrite boundary_ascii by reflexivity.
  now apply plain_one_line.
Qed.

Lemma line_not_empty prefix entry : Remote.line prefix entry <> "".
Proof. unfold Remote.line. destruct entry.1; discriminate. Qed.

Lemma splitlines_listing prefix entries :
  Remote.plain prefix = true ->
  forallb (Remote.clean prefix) entries = true ->
  Py.splitlines (Remote.listing prefix entries) = map (Remote.line prefix) entries.
Proof.
  intros Hp. induction entries as [|e rest IH]; [reflexivity|].
  intros [He Hrest]%andb_prop.
  destruct rest as [|e' rest].
  - apply splitlines_one_line; [apply line_not_empty | now apply line_one_line].
  - change (Remote.listing prefix (e :: e' :: rest))
      with (Remote.line prefix e +:+ String Py.lf (Remote.listing prefix (e' :: rest))).
    rewrite splitlines_first by now apply line_one_line.
    now rewrite (IH Hrest).
Qed.

(** A clean listing is read back as the short names of its entries, in
    order and with repetitions. *)
Lemma names_of_listing prefix entries :
  prefix <> "" -> Remote.plain prefix = true ->
  forallb (Remote.clean prefix) entries = true ->
  mapM (logic.ref_name prefix) (Py.splitlines (Remote.listing prefix entries))
  = Some (map snd entries).
Proof.
  intros Hne Hp Hc. rewrite splitlines_listing by assumption.
  induction entries as [|e rest IH]; [reflexivity|].
  apply andb_prop in Hc as [He Hrest]. cbn.
  rewrite ref_name_line by (assumption || now apply plain_no_tab). cbn.
  now rewrite (IH Hrest).
Qed.

Lemma split_not_nil sep s : Py.split sep s <> [].
Proof.
  destruct s as [|a s]; simpl; [done|].
  destruct (Ascii.eqb a sep); [done|]. destruct (Py.split sep s); done.
Qed.

Lemma split_append sep a b :
  Py.split sep (a +:+ String sep b) = Py.split sep a ++ Py.split sep b.
Proof.
  induction a as [|c a IH]; simpl.
  - now rewrite Ascii.eqb_refl.
  - destruct (Ascii.eqb c sep); [now rewrite IH|].
    rewrite IH. pose proof (split_not_nil sep a) as Hn.
    destruct (Py.split sep a); [congruence|reflexivity].
Qed.

Lemma startswith_git_suffix s :
  s <> "" -> Py.startswith ".git" s = false ->
  Py.startswith ".git" (s +:+ ".git") = false.
Proof.
  intros Hne. destruct s as [|c1 [|c2 [|c3 [|c4 s]]]]; [congruence| | | |];
    simpl;
    repeat match goal with
           | |- context [Ascii.eqb ?a ?b] => destruct (Ascii.eqb_spec a b); subst
           end; simpl; congruence.
Qed.

Lemma replace_git_suffix repo :
  Remote.occurs ".git" repo = false -> Py.replace ".git" "" (repo +:+ ".git") = repo.
Proof.
  induction repo as [|c r IH]; [reflexivity|].
  intros H. change (Remote.occurs ".git" (String c r))
    with (Py.startswith ".git" (String c r) || Remote.occurs ".git" r) in H.
  apply orb_false_elim in H as [H1 H2].
  unfold Py.replace in *.
  change (String c r +:+ ".git") with (String c (r +:+ ".git")).
  change (Py.replace_aux ".git" "" 0 (String c (r +:+ ".git")))
    with (if Py.startswith ".git" (String c (r +:+ ".git"))
          then "" +:+ Py.replace_aux ".git" "" (String.length ".git" - 1) (r +:+ ".git")
          else String c (Py.replace_aux ".git" "" 0 (r +:+ ".git"))).
  change (String c (r +:+ ".git")) with (String c r +:+ ".git").
  rewrite startswith_git_suffix by (congruence || exact H1).
  now rewrite (IH H2).
Qed.

End StringLemmas.

(** Symbolic execution keeps the helpers of the model folded. *)
Arguments Py.join : simpl never.
Arguments Py.join3 : simpl never.
Arguments Py.strip : simpl never.
Arguments Py.replace : simpl never.
Arguments Py.split : simpl never.
Arguments Py.splitlines : simpl never.
Arguments String.append : simpl never.
Arguments Json.loads : simpl never.
Arguments exists_on : simpl never.
Arguments makedirs : simpl never.
Arguments copytree : simpl never.
Arguments apply_widget : simpl never.
Arguments pretty : simpl never.

(** ** Symbolic execution of a run *)

Lemma lookup_snoc_length {A} (l : list A) (x : A) : (l ++ [x]) !! length l = Some x.
Proof. induction l as [|a l IH]; simpl; [reflexivity | exact IH]. Qed.

Lemma added_app (w w' : World) (l : list Event) :
  w'.(trace) = w.(trace) ++ l -> added w w' = l.
Proof. intros H. unfold added. rewrite H. apply drop_app_length. Qed.

(** One more oracle answer is needed: split on it. *)
Ltac ask :=
  match goal with
  | |- context [exists_on ?f ?p] => destruct (exists_on f p) eqn:?
  | |- context [os_error ?e ?t ?p] => destruct (os_error e t p) eqn:?
  | |- context [git_result ?e ?t ?o] => destruct (git_result e t o) eqn:?
  | |- context [popen_error ?e ?t ?a] => destruct (popen_error e t a) eqn:?
  | |- context [exits_in_time ?e ?t ?p ?s] => destruct (exits_in_time e t p s) eqn:?
  | |- context [ls_remote ?e ?t ?f ?u] => destruct (ls_remote e t f u) eqn:?
  | |- context [head_status ?e ?t ?u] => destruct (head_status e t u) eqn:?
  end.

Ltac sym := repeat (cbn; rewrite ?lookup_snoc_length; try ask).

(** The trace of the final world, as the old trace followed by a list. *)
Ltac settle_added :=
  unfold added; cbn; rewrite <- ?app_assoc; rewrite ?drop_app_length, ?drop_all; cbn.

(** Membership in an explicit list of events: one goal for each entry
    that can be the event. *)
Ltac scan H :=
  repeat match type of H with
         | _ ∈ _ :: _ => apply elem_of_cons in H as [H|H]; [try discriminate H|]
         | _ ∈ [] => apply elem_of_nil in H; contradiction
         end.

(** ** deploy_prebuilt *)

Lemma deploy_prebuilt_absent env web work w :
  exists_on w.(fs) (Py.join3 work "New_IG_Source" "sitepreview") = false ->
  run env (logic.deploy_prebuilt web work) w
  = (Val false,
     record (EPrint "❌ No pre-built IG found in sitepreview.")
       (record (ECall "deploy_prebuilt") w)).
Proof.
  intros H. unfold logic.deploy_prebuilt. cbn. rewrite H. reflexivity.
Qed.

Lemma deploy_prebuilt_present env web work w :
  exists_on w.(fs) (Py.join3 work "New_IG_Source" "sitepreview") = true ->
  run env (logic.deploy_prebuilt web work) w
  = (Exc (NameError "shutil"),
     record (EPrint ("📥 Copying sitepreview contents to " +:+ web +:+ "..."))
       (record (ECall "deploy_prebuilt") w)).
Proof.
  intros H. unfold logic.deploy_prebuilt. cbn. rewrite H. reflexivity.
Qed.

(** C6. When no [sitepreview] folder exists under the synced IG source,
    [deploy_prebuilt] returns [False] (the NoArtifactFound failure) and
    does nothing but print one line: the disk, the subprocesses and the
    widgets are as before, and no copy, commit or push is attempted. *)
Theorem deploy_prebuilt_no_artifact env web work w :
  exists_on w.(fs) (Py.join3 work "New_IG_Source" "sitepreview") = false ->
  exists w',
    run env (logic.deploy_prebuilt web work) w = (Val false, w')
    /\ w'.(fs) = w.(fs) /\ w'.(procs) = w.(procs) /\ w'.(ui) = w.(ui)
    /\ added w w' = [ECall "deploy_prebuilt";
                     EPrint "❌ No pre-built IG found in sitepreview."].
Proof.
  intros H. eexists. split; [apply deploy_prebuilt_absent, H|].
  repeat split. settle_added. reflexivity.
Qed.

Lemma deploy_prebuilt_no_artifact_witness :
  exists_on (world0 disk_web).(fs) (Py.join3 "w" "New_IG_Source" "sitepreview") = false
  /\ exists w',
       run calm (logic.deploy_prebuilt "w/Current_Web_Content" "w") (world0 disk_web)
       = (Val false, w')
       /\ w'.(fs) = disk_web /\ w'.(procs) = [] /\ w'.(ui) = app0
       /\ added (world0 disk_web) w'
          = [ECall "deploy_prebuilt"; EPrint "❌ No pre-built IG found in sitepreview."].
Proof.
  split; [vm_compute; reflexivity|].
  apply (deploy_prebuilt_no_artifact calm "w/Current_Web_Content" "w" (world0 disk_web)).
  vm_compute; reflexivity.
Defined.

(** C2. With a [sitepreview] folder on the disk, [deploy_prebuilt] does
    not copy, commit, create the branch [new] or push: logic.py uses
    [shutil.copytree] without importing [shutil], so the call raises
    NameError after the first print, and the disk is as before. *)
Theorem deploy_prebuilt_raises_NameError :
  run calm (logic.deploy_prebuilt "w/Current_Web_Content" "w") (world0 disk_preview)
  = (Exc (NameError "shutil"),
     mkWorld disk_preview [] app0
       [ECall "deploy_prebuilt";
        EPrint "📥 Copying sitepreview contents to w/Current_Web_Content..."]).
Proof.
  rewrite deploy_prebuilt_present by (vm_compute; reflexivity). reflexivity.
Qed.

(** ** fetch_or_update_repo *)

Lemma lookup_killed (l : list ProcStatus) :
  <[length l := Killed]> (l ++ [Running]) !! length l = Some Killed.
Proof. apply list_lookup_insert_eq. rewrite length_app. simpl. lia. Qed.

(** C7. When the wait on the fetch subprocess runs into the timeout, the
    subprocess is killed at once, the call returns [False], and the
    subprocess is dead in the final state. *)
Theorem fetch_timeout_kills env url dest timeout w r w' pid :
  run env (logic.fetch_or_update_repo url dest timeout) w = (r, w') ->
  EWait pid (Some timeout) (Some TimeoutExpired) ∈ added w w' ->
  r = Val false /\ procs w' !! pid = Some Killed /\
  exists before,
    added w w' =
    before ++ [EWait pid (Some timeout) (Some TimeoutExpired); EKill pid;
               EPrint ("❌ Fetching " +:+ url +:+ " timed out after "
                       +:+ pretty timeout +:+ " seconds.")].
Proof.
  unfold logic.fetch_or_update_repo. sym.
  all: intros [= <- <-]; settle_added.
  all: intros Hin; scan Hin.
  all: injection Hin as ->.
  all: split; [reflexivity|split; [apply lookup_killed|]].
  - by eexists [_; _; _; _].
  - by eexists [_; _; _; _; _].
Qed.

Lemma fetch_timeout_kills_witness :
  let w := world0 disk_web in
  let res := run stalled (logic.fetch_or_update_repo "https://github.com/acme/web"
                            "w/Current_Web_Content" 60) w in
  EWait 0 (Some 60%Z) (Some TimeoutExpired) ∈ added w res.2
  /\ res.1 = Val false /\ procs res.2 !! 0%nat = Some Killed.
Proof.
  intros w res.
  assert (Hin : EWait 0 (Some 60%Z) (Some TimeoutExpired) ∈ added w res.2).
  { vm_compute. do 4 apply list_elem_of_further. apply list_elem_of_here. }
  split; [exact Hin|].
  destruct (fetch_timeout_kills stalled "https://github.com/acme/web"
              "w/Current_Web_Content" 60 w res.1 res.2 0) as (Hr & Hp & _).
  - vm_compute; reflexivity.
  - exact Hin.
  - split; assumption.
Defined.

(** C10. When the destination does not exist, [os.makedirs] is the first
    effect of the call, before any git operation or subprocess; and if
    the call returns, with [True] or with [False], the destination is a
    directory on the disk, provided the external tools do not remove it. *)
Theorem fetch_creates_destination env url dest timeout w r w' :
  (forall t f, f !! dest = Some Dir -> disk_after env t f !! dest = Some Dir) ->
  exists_on w.(fs) dest = false ->
  run env (logic.fetch_or_update_repo url dest timeout) w = (r, w') ->
  (exists o rest,
      added w w' = ECall "fetch_or_update_repo" :: EMakedirs dest o :: rest)
  /\ (forall b, r = Val b -> fs w' !! dest = Some Dir).
Proof.
  intros Hkeep Habs. unfold logic.fetch_or_update_repo. cbn. rewrite Habs. sym.
  all: intros [= <- <-]; settle_added.
  all: split; [by eexists _, _|].
  all: intros b Hb; try discriminate Hb.
  all: repeat apply Hkeep; apply lookup_insert_eq.
Qed.

Lemma fetch_creates_destination_witness :
  let w := world0 disk_web in
  let res := run offline (logic.fetch_or_update_repo "https://github.com/acme/history"
                            "w/History_Template" 60) w in
  (forall t f, f !! "w/History_Template" = Some Dir ->
               disk_after offline t f !! "w/History_Template" = Some Dir)
  /\ exists_on w.(fs) "w/History_Template" = false
  /\ res.1 = Val false
  /\ fs res.2 !! "w/History_Template" = Some Dir.
Proof.
  intros w res.
  assert (Hkeep : forall t f, f !! "w/History_Template" = Some Dir ->
            disk_after offline t f !! "w/History_Template" = Some Dir).
  { intros t f H. exact H. }
  split; [exact Hkeep|]. split; [vm_compute; reflexivity|].
  split; [vm_compute; reflexivity|].
  destruct (fetch_creates_destination offline "https://github.com/acme/history"
              "w/History_Template" 60 w res.1 res.2 Hkeep) as [_ Hdir].
  - vm_compute; reflexivity.
  - vm_compute; reflexivity.
  - apply (Hdir false). vm_compute; reflexivity.
Defined.

(** ** load_publication_request and validate_json *)

(** C8. [load_publication_request] returns a payload for every repository
    path and every disk: the text of the manifest when the file can be
    read, and the empty object when the file is absent or cannot be read;
    in that case the payload parses as an empty object and
    [validate_json] of cli.py accepts it. *)
Theorem load_publication_request_total env repo_path w :
  exists payload w',
    run env (logic.load_publication_request repo_path) w = (Val payload, w')
    /\ fs w' = fs w
    /\ match fs w !! Py.join repo_path "publication-request.json" with
       | Some (File (Some text)) => payload = text
       | _ =>
           payload = "{}"
           /\ Json.loads payload = Some (Json.Object [])
           /\ (run env (cli.validate_json repo_path) w).1 = Val true
       end.
Proof.
  unfold cli.validate_json, logic.load_publication_request. cbn.
  unfold exists_on.
  destruct (fs w !! Py.join repo_path "publication-request.json")
    as [[|[text|]]|] eqn:E; cbn; rewrite ?E; cbn.
  all: eexists _, _; (split; [reflexivity|]); (split; [reflexivity|]).
  all: try reflexivity.
  all: rewrite ?loads_empty_object; cbn; auto.
Qed.

(** ** get_git_branches *)

(** [get_git_branches] returns a list and leaves the disk, the
    subprocesses and the widgets as they are. When the remote answers both
    listings and no name holds a tab, a line boundary or the prefix of
    its ref kind, the list is the branches in listing order followed by
    the tags in listing order, repeated names included. When a listing
    fails, the failure is reported as the empty list. *)
Theorem get_git_branches_branches_then_tags env url w :
  let t := length w.(trace) in
  exists refs w',
    run env (logic.get_git_branches url) w = (Val refs, w')
    /\ fs w' = fs w /\ procs w' = procs w /\ ui w' = ui w
    /\ (forall branches tags,
          forallb (Remote.clean "refs/heads/") branches = true ->
          forallb (Remote.clean "refs/tags/") tags = true ->
          env.(ls_remote) (S t) "--heads" url
            = Val (Remote.listing "refs/heads/" branches) ->
          env.(ls_remote) (S (S t)) "--tags" url
            = Val (Remote.listing "refs/tags/" tags) ->
          refs = map snd branches ++ map snd tags)
    /\ ((exists e, env.(ls_remote) (S t) "--heads" url = Exc e)
        \/ (exists e, env.(ls_remote) (S (S t)) "--tags" url = Exc e) ->
        refs = []).
Proof.
  intros t. unfold logic.get_git_branches, logic.ref_names. cbn.
  rewrite !length_app. cbn [length]. rewrite !Nat.add_1_r. fold t.
  destruct (ls_remote env (S t) "--heads" url) as [hs|e1] eqn:Eh; cbn.
  - destruct (mapM (logic.ref_name "refs/heads/") (Py.splitlines hs))
      as [bl|] eqn:Ebl; cbn.
    + rewrite !length_app. cbn [length]. rewrite !Nat.add_1_r. fold t.
      destruct (ls_remote env (S (S t)) "--tags" url) as [ts|e2] eqn:Et; cbn.
      * destruct (mapM (logic.ref_name "refs/tags/") (Py.splitlines ts))
          as [tl|] eqn:Etl; cbn.
        -- eexists _, _. repeat (split; [reflexivity|]). split.
           ++ intros branches tags Hb Ht [= ->] [= ->].
              rewrite names_of_listing in Ebl by (done || reflexivity).
              rewrite names_of_listing in Etl by (done || reflexivity).
              congruence.
           ++ intros [[e [=]]|[e [=]]].
        -- eexists _, _. repeat (split; [reflexivity|]). split.
           ++ intros branches tags Hb Ht [= ->] [= ->].
              rewrite names_of_listing in Etl by (done || reflexivity).
              discriminate.
           ++ reflexivity.
      * eexists _, _. repeat (split; [reflexivity|]). split.
        -- intros branches tags _ _ _ [=].
        -- reflexivity.
    + eexists _, _. repeat (split; [reflexivity|]). split.
      * intros branches tags Hb Ht [= ->] _.
        rewrite names_of_listing in Ebl by (done || reflexivity).
        discriminate.
      * reflexivity.
  - eexists _, _. repeat (split; [reflexivity|]). split.
    + intros branches tags _ _ [=].
    + reflexivity.
Qed.

Lemma get_git_branches_branches_then_tags_witness :
  let w := world0 disk_web in
  let res := run listed (logic.get_git_branches "https://github.com/acme/ig") w in
  forallb (Remote.clean "refs/heads/") heads0 = true
  /\ forallb (Remote.clean "refs/tags/") tags0 = true
  /\ res.1 = Val ["main"; "feature/x"; "v1.0"; "main"]
  /\ fs res.2 = fs w.
Proof.
  intros w res.
  destruct (get_git_branches_branches_then_tags listed "https://github.com/acme/ig" w)
    as (refs & w' & Hrun & Hfs & _ & _ & Hrefs & _).
  assert (Hb : forallb (Remote.clean "refs/heads/") heads0 = true)
    by (vm_compute; reflexivity).
  assert (Ht : forallb (Remote.clean "refs/tags/") tags0 = true)
    by (vm_compute; reflexivity).
  specialize (Hrefs heads0 tags0 Hb Ht eq_refl eq_refl).
  subst res. rewrite Hrun. simpl. rewrite Hrefs, Hfs. repeat split; assumption.
Defined.

(** C9. The list is not always the remote's. For a branch whose name
    holds the prefix of its ref kind again, [x/refs/heads/y], the call
    returns the name [x/y], which the remote does not have: [replace]
    removes every occurrence. For a branch whose name holds the line
    separator U+2028, the call returns the empty list although both
    listings were answered: [splitlines] cuts the line there and the
    second piece has no tab. *)
Theorem get_git_branches_mangles_names :
  (run (one_branch "x/refs/heads/y") (logic.get_git_branches "https://github.com/acme/ig")
     (world0 disk_web)).1
  = Val ["x/y"]
  /\ (run (one_branch ("rel" +:+ line_separator +:+ "ease"))
          (logic.get_git_branches "https://github.com/acme/ig") (world0 disk_web)).1
     = Val [].
Proof. split; vm_compute; reflexivity. Qed.

(** ** Traces only grow *)

Lemma added_same w : added w w = [].
Proof. unfold added. apply drop_all. Qed.

Lemma exec_extends env {X} (c : Cmd X) w :
  (exec env c w).2.(trace) = w.(trace) ++ added w (exec env c w).2.
Proof.
  unfold added.
  destruct c; cbn; repeat case_match; cbn;
    rewrite ?drop_app_length, ?drop_all, ?app_nil_r; reflexivity.
Qed.

Lemma run_extends env {A} (p : Prog A) w :
  (run env p w).2.(trace) = w.(trace) ++ added w (run env p w).2.
Proof.
  revert w. induction p as [a|e|X c k IH]; intros w; cbn.
  - now rewrite added_same, app_nil_r.
  - now rewrite added_same, app_nil_r.
  - destruct (exec env c w) as [o w1] eqn:E.
    pose proof (exec_extends env c w) as H1. rewrite E in H1. cbn in H1.
    specialize (IH o w1). unfold added in *.
    rewrite IH, H1, <- app_assoc, !drop_app_length. reflexivity.
Qed.

Lemma added_trans w w1 w2 l1 l2 :
  w1.(trace) = w.(trace) ++ l1 -> w2.(trace) = w1.(trace) ++ l2 ->
  added w w2 = l1 ++ l2.
Proof.
  intros H1 H2. unfold added. rewrite H2, H1, <- app_assoc. apply drop_app_length.
Qed.

(** The events of a run are the events of its first command followed by
    the events of the rest. *)
Lemma added_run_vis env {A X} (c : Cmd X) (k : Outcome X -> Prog A) w :
  added w (run env (Vis c k) w).2
  = added w (exec env c w).2
    ++ added (exec env c w).2 (run env (k (exec env c w).1) (exec env c w).2).2.
Proof.
  cbn. destruct (exec env c w) as [o w1] eqn:E. cbn.
  apply (added_trans w w1).
  - pose proof (exec_extends env c w) as H. now rewrite E in H.
  - apply run_extends.
Qed.

Lemma added_run_bind env {A B} (p : Prog A) (f : A -> Prog B) w :
  added w (run env (bind p f) w).2
  = added w (run env p w).2
    ++ match (run env p w).1 with
       | Val a => added (run env p w).2 (run env (f a) (run env p w).2).2
       | Exc _ => []
       end.
Proof.
  rewrite run_bind. destruct (run env p w) as [[a|e] w1] eqn:E; cbn.
  - apply (added_trans w w1); [|apply run_extends].
    pose proof (run_extends env p w) as H. now rewrite E in H.
  - rewrite app_nil_r. reflexivity.
Qed.

(** ** Programs that only add events of one kind *)

Lemma only_weaken (Q Q' : Event -> Prop) {A} (p : Prog A) :
  (forall e, Q e -> Q' e) -> only Q p -> only Q' p.
Proof.
  intros HQ. induction p as [a|e|X c k IH]; cbn; [auto|auto|].
  intros [Hc Hk]. split.
  - intros env w e He. apply HQ, (Hc env w e He).
  - intros o. apply IH, Hk.
Qed.

Lemma only_bind Q {A B} (p : Prog A) (f : A -> Prog B) :
  only Q p -> (forall a, only Q (f a)) -> only Q (bind p f).
Proof.
  intros Hp Hf. induction p as [a|e|X c k IH]; cbn; [apply Hf|exact I|].
  destruct Hp as [Hc Hk]. split; [exact Hc|]. intros o. apply IH, Hk.
Qed.

Lemma only_try Q {A} (p : Prog A) (h : Exn -> option (Prog A)) :
  only Q p -> (forall e q, h e = Some q -> only Q q) -> only Q (try_except p h).
Proof.
  intros Hp Hh. induction p as [a|e|X c k IH]; cbn; [exact I| |].
  - destruct (h e) as [q|] eqn:E; [apply (Hh e q E)|exact I].
  - destruct Hp as [Hc Hk]. split; [exact Hc|]. intros o. apply IH, Hk.
Qed.

(** What holds of the program holds of each of its runs. *)
Lemma run_only Q env {A} (p : Prog A) w :
  only Q p -> Forall Q (added w (run env p w).2).
Proof.
  revert w. induction p as [a|e|X c k IH]; intros w Hp.
  - cbn. rewrite added_same. constructor.
  - cbn. rewrite added_same. constructor.
  - destruct Hp as [Hc Hk]. rewrite added_run_vis. apply Forall_app. split.
    + apply Forall_forall. intros e He. apply (Hc env w e He).
    + apply IH, Hk.
Qed.

(** The events of one command, by cases on what the outside answers. *)
Ltac emits_tac :=
  let H := fresh "H" in
  intros ? ? ? ; cbn; repeat case_match; unfold added; cbn;
  rewrite ?drop_app_length, ?drop_all; intros H; scan H; subst; cbn; auto 12.

(** From one kind of event to another, by cases on the event. *)
Ltac classify :=
  let e := fresh "e" in
  let H := fresh "H" in
  intros e H; destruct e as [?|?|[]|?|?|?|?|?|? ? [] ?|?|?|?|?|?|?|?];
  cbn in *; try discriminate H;
  repeat match goal with
         | |- context [String.eqb ?a ?b] => destruct (String.eqb a b)
         | H : context [String.eqb ?a ?b] |- _ => destruct (String.eqb a b)
         end;
  cbn in *; intuition (try discriminate; auto).

Create HintDb only discriminated.

(** A sub-program whose events are known from a lemma of the database. *)
Ltac known :=
  first [ solve [eauto with only]
        | eapply only_weaken; [|solve [eauto with only]]; solve [classify] ].

(** A walk over the tree of a program. *)
Ltac walk :=
  repeat (cbn;
          match goal with
          | |- True => exact I
          | |- _ /\ _ => split
          | |- context [match ?o with Val _ => _ | Exc _ => _ end] => is_var o; destruct o
          | |- context [if ?b then _ else _] => is_var b; destruct b
          | |- context [if negb ?b then _ else _] => is_var b; destruct b
          | |- forall _, _ => intro
          | |- emits _ _ => solve [emits_tac]
          | |- only _ _ => solve [known]
          | |- only _ (bind _ _) => apply only_bind
          | |- only _ (mbind _ _) => apply only_bind
          | |- only _ (try_except _ _) => apply only_try
          | |- only _ (match (match ?x with _ => _ end) with _ => _ end) => destruct x
          | |- only _ (match ?x with _ => _ end) => destruct x
          | |- only _ (if ?x then _ else _) => destruct x
          | H : except_Exception _ _ = Some ?q |- _ =>
              unfold except_Exception in H; injection H as H; subst q
          | H : match ?e with TimeoutExpired => _ | _ => _ end = Some ?q |- _ =>
              destruct e; try discriminate H; injection H as H; subst q
          end).

Lemma fetch_or_update_repo_quiet url dest timeout :
  only (fun e => quiet e = true) (logic.fetch_or_update_repo url dest timeout).
Proof. unfold logic.fetch_or_update_repo. walk. Qed.

Lemma get_git_branches_quiet url :
  only (fun e => quiet e = true) (logic.get_git_branches url).
Proof. unfold logic.get_git_branches, logic.ref_names. walk. Qed.

Lemma switch_to_branch_quiet path branch :
  only (fun e => quiet e = true) (logic.switch_to_branch path branch).
Proof. unfold logic.switch_to_branch. walk. Qed.

Lemma load_publication_request_quiet path :
  only (fun e => quiet e = true) (logic.load_publication_request path).
Proof. unfold logic.load_publication_request. walk. Qed.

Lemma download_gh_pages_quiet url work :
  only (fun e => quiet e = true) (logic.download_gh_pages url work).
Proof. unfold logic.download_gh_pages. walk. Qed.

Lemma gh_pages_has_sitepreview_head url :
  only (fun e => quiet e = true \/ is_head e = true) (logic.gh_pages_has_sitepreview url).
Proof. unfold logic.gh_pages_has_sitepreview. walk. Qed.

Lemma attribute_silent Q name : only Q (logic.attribute name).
Proof. unfold logic.attribute. now destruct (existsb _ _). Qed.

Lemma deploy_built_deploy web :
  only (fun e => quiet e = true \/ is_deploy e = true) (logic.deploy_built web).
Proof. unfold logic.deploy_built. walk. Qed.

Lemma deploy_prebuilt_deploy web work :
  only (fun e => quiet e = true \/ is_deploy e = true) (logic.deploy_prebuilt web work).
Proof. unfold logic.deploy_prebuilt, logic.read_global. walk. Qed.

#[local] Hint Resolve fetch_or_update_repo_quiet get_git_branches_quiet
  switch_to_branch_quiet load_publication_request_quiet download_gh_pages_quiet
  gh_pages_has_sitepreview_head attribute_silent
  deploy_built_deploy deploy_prebuilt_deploy : only.

Arguments logic.fetch_or_update_repo : simpl never.
Arguments logic.get_git_branches : simpl never.
Arguments logic.switch_to_branch : simpl never.
Arguments logic.load_publication_request : simpl never.
Arguments logic.download_gh_pages : simpl never.
Arguments logic.gh_pages_has_sitepreview : simpl never.
Arguments logic.attribute : simpl never.
Arguments logic.deploy_built : simpl never.
Arguments logic.deploy_prebuilt : simpl never.

Lemma log_quiet message : only (fun e => quiet e = true) (ui.log message).
Proof. unfold ui.log. walk. Qed.

#[local] Hint Resolve log_quiet : only.
Arguments ui.log : simpl never.

Lemma log_lines_quiet lines : only (fun e => quiet e = true) (ui.log_lines lines).
Proof. induction lines as [|line rest IH]; [exact I|]. cbn [ui.log_lines]. walk. Qed.

Lemma field_silent Q name : only Q (ui.field name).
Proof. unfold ui.field. walk. Qed.

#[local] Hint Resolve log_lines_quiet field_silent : only.
Arguments ui.log_lines : simpl never.
Arguments ui.field : simpl never.

Lemma validate_json_validation :
  only (fun e => quiet e = true \/ is_validation e = true) ui.validate_json.
Proof. unfold ui.validate_json. walk. Qed.

Lemma run_commands_publisher cmds :
  only (fun e => quiet e = true \/ is_publisher e = true) (ui.run_commands cmds).
Proof.
  induction cmds as [|cmd rest IH]; [exact I|]. cbn [ui.run_commands]. walk.
Qed.

Lemma run_publisher_publisher source work :
  only (fun e => quiet e = true \/ is_publisher e = true) (ui.run_publisher source work).
Proof. apply run_commands_publisher. Qed.

#[local] Hint Resolve validate_json_validation run_commands_publisher
  run_publisher_publisher : only.
Arguments ui.validate_json : simpl never.
Arguments ui.run_commands : simpl never.
Arguments ui.run_publisher : simpl never.

Lemma percent_silent Q completed total : only Q (ui.percent completed total).
Proof. unfold ui.percent. walk. Qed.

#[local] Hint Resolve percent_silent : only.
Arguments ui.percent : simpl never.

Lemma fetch_repos_loop_progress names total completed :
  only (fun e => quiet e = true \/ is_progress e = true)
       (ui.fetch_repos_loop names total completed).
Proof.
  revert completed. induction names as [|name rest IH]; intros completed; [exact I|].
  cbn [ui.fetch_repos_loop]. walk.
Qed.

#[local] Hint Resolve fetch_repos_loop_progress : only.
Arguments ui.fetch_repos_loop : simpl never.

Lemma fetch_repos_progress :
  only (fun e => quiet e = true \/ is_progress e = true) ui.fetch_repos.
Proof. unfold ui.fetch_repos. walk. Qed.

Lemma prebuilt_path_events source work :
  only (fun e => quiet e = true \/ is_visibility e = true \/ is_progress e = true)
       (ui.prebuilt_path source work).
Proof. unfold ui.prebuilt_path. walk. Qed.

Lemma full_build_path_events source work :
  only (fun e => quiet e = true \/ is_stage e = true
                 \/ is_visibility e = true \/ is_progress e = true)
       (ui.full_build_path source work).
Proof. unfold ui.full_build_path. walk. Qed.

#[local] Hint Resolve fetch_repos_progress prebuilt_path_events
  full_build_path_events : only.
Arguments ui.fetch_repos : simpl never.
Arguments ui.prebuilt_path : simpl never.
Arguments ui.full_build_path : simpl never.

Lemma on_branch_selected_quiet : only (fun e => quiet e = true) ui.on_branch_selected.
Proof. unfold ui.on_branch_selected. walk. Qed.

#[local] Hint Resolve on_branch_selected_quiet : only.
Arguments ui.on_branch_selected : simpl never.

Lemma combo_quiet op :
  quiet (EWidget op) = true -> only (fun e => quiet e = true) (ui.combo op).
Proof.
  intros Hop. unfold ui.combo. cbn. split; [emits_tac|]. intros o.
  destruct o; cbn; [|exact I]. split.
  - intros env w e. cbn. unfold added. cbn. rewrite drop_app_length.
    intros H. scan H. now subst.
  - intros o. destruct o; cbn; [|exact I]. split; [emits_tac|].
    intros o. destruct o; cbn; [|exact I]. case_bool_decide; [exact I|].
    apply on_branch_selected_quiet.
Qed.

Arguments ui.combo : simpl never.

Lemma fetch_ig_repo_events :
  only (fun e => quiet e = true \/ is_head e = true \/ is_visibility e = true)
       ui.fetch_ig_repo.
Proof.
  assert (Hc : forall op, quiet (EWidget op) = true ->
             only (fun e => quiet e = true \/ is_head e = true \/ is_visibility e = true)
                  (ui.combo op)).
  { intros op Hop. eapply only_weaken; [|apply combo_quiet, Hop]. auto. }
  unfold ui.fetch_ig_repo. walk; apply Hc; reflexivity.
Qed.

Lemma build_ig_events :
  only (fun e => quiet e = true \/ is_stage e = true \/ is_head e = true
                 \/ is_spawn e = true \/ is_visibility e = true \/ is_progress e = true)
       ui.build_ig.
Proof. unfold ui.build_ig, ui.fetch_all_repos. walk. Qed.

Lemma ui_deploy_built_events :
  only (fun e => quiet e = true \/ is_deploy e = true) ui.deploy_built.
Proof. unfold ui.deploy_built. walk. Qed.

Lemma ui_deploy_prebuilt_events :
  only (fun e => quiet e = true \/ is_deploy e = true) ui.deploy_prebuilt.
Proof. unfold ui.deploy_prebuilt. walk. Qed.

(** A run from [w1], read as the continuation of a run from [w]. *)
Lemma run_added env {A} (p : Prog A) w w1 r w' l :
  w1.(trace) = w.(trace) ++ l -> run env p w1 = (r, w') ->
  added w w' = l ++ added w1 w'.
Proof.
  intros H1 Hrun. apply (added_trans w w1); [exact H1|].
  pose proof (run_extends env p w1) as H. now rewrite Hrun in H.
Qed.

Lemma run_only_of Q env {A} (p : Prog A) w1 r w' :
  only Q p -> run env p w1 = (r, w') -> Forall Q (added w1 w').
Proof.
  intros Hp Hrun. pose proof (run_only Q env p w1 Hp) as H. now rewrite Hrun in H.
Qed.

(** ** build_ig: the prebuilt path *)

Lemma not_head_not_found e : is_head e = false -> is_preview_found e = false.
Proof. destruct e; cbn; congruence. Qed.

Lemma full_build_path_never_probes env source work w1 r w' e :
  run env (ui.full_build_path source work) w1 = (r, w') ->
  e ∈ added w1 w' -> is_head e = false.
Proof.
  intros Hrun He.
  assert (H : Forall (fun e => is_head e = false) (added w1 w')).
  { eapply run_only_of; [|exact Hrun].
    eapply only_weaken; [|apply full_build_path_events]. classify. }
  rewrite Forall_forall in H. apply (H e He).
Qed.

(** Symbolic execution of a handler: also the reads of the widgets. *)
Ltac ask_ui :=
  match goal with
  | |- context [find ?f ?l] => destruct (find f l) as [[? ?]|] eqn:?
  | |- context [logic.gh_pages_url ?u] => destruct (logic.gh_pages_url u) eqn:?
  | |- context [Nat.eqb ?n 200] => destruct (Nat.eqb n 200) eqn:?
  | |- context [Json.loads ?s] => destruct (Json.loads s) eqn:?
  end.

Ltac sym_ui := repeat (cbn; rewrite ?lookup_snoc_length; try first [ask | ask_ui]).

Ltac find_in := repeat first [apply list_elem_of_here | apply list_elem_of_further].

(** The trace of an explicit world is the old trace and a list. *)
Ltac extends := cbn; rewrite <- ?app_assoc; cbn; reflexivity.

Lemma run_mbind env {A B} (p : Prog A) (f : A -> Prog B) w :
  run env (x ← p; f x) w =
  match run env p w with
  | (Val a, w') => run env (f a) w'
  | (Exc e, w') => (Exc e, w')
  end.
Proof. apply run_bind. Qed.

Lemma field_run env name w :
  run env (ui.field name) w
  = (match find (fun '(n, _) => String.eqb n name) (repo_fields (ui w)) with
     | Some (_, text) => Val text
     | None => Exc (KeyError name)
     end, w).
Proof. unfold ui.field. cbn. now destruct (find _ _) as [[? ?]|]. Qed.

Lemma log_run env message w : run env (ui.log message) w = (Val tt, logged message w).
Proof. reflexivity. Qed.

(** The trace of an explicit world, as the old trace and a list. *)
Ltac grown := cbn; rewrite <- ?app_assoc; cbn; reflexivity.

(** A property of every event of an explicit list. *)
Ltac each :=
  repeat (apply List.Forall_cons; [first [assumption | cbn; auto]|]); apply List.Forall_nil.

Lemma probe_run env url w :
  exists b l w1,
    run env (logic.gh_pages_has_sitepreview url) w = (Val b, w1)
    /\ fs w1 = fs w /\ procs w1 = procs w /\ ui w1 = ui w
    /\ trace w1 = trace w ++ l
    /\ Forall (fun e => quiet e = true \/ is_head e = true) l
    /\ (if b then exists u, EHead u (Val 200%nat) ∈ l
        else Forall (fun e => is_preview_found e = false) l).
Proof.
  unfold logic.gh_pages_has_sitepreview. sym_ui.
  all: eexists _, _, _; (split; [reflexivity|]);
    do 3 (split; [reflexivity|]); (split; [grown|]);
    (split; [each|]).
  all: try (each; fail).
  all: apply Nat.eqb_eq in Heqb; subst; eexists; find_in.
Qed.

Lemma download_gh_pages_run env url work w :
  exists l w1,
    run env (logic.download_gh_pages url work) w = (Val tt, w1)
    /\ ui w1 = ui w
    /\ trace w1 = trace w ++ ECall "download_gh_pages" :: l
    /\ Forall (fun e => quiet e = true) l.
Proof.
  unfold logic.download_gh_pages. sym.
  all: eexists _, _; (split; [reflexivity|]); (split; [reflexivity|]);
    (split; [grown|]); each.
Qed.

Lemma quiet_not_publisher e : quiet e = true -> is_publisher e = false.
Proof. revert e. classify. Qed.

Lemma prebuilt_path_run env source work w :
  exists l w',
    run env (ui.prebuilt_path source work) w = (Val tt, w')
    /\ trace w' = trace w ++ l
    /\ ECall "download_gh_pages" ∈ l
    /\ deploy_prebuilt_button (ui w') = true
    /\ progress_bar (ui w') = 100%Z
    /\ Forall (fun e => is_publisher e = false) l.
Proof.
  destruct (download_gh_pages_run env source work
              (logged "🌍 Downloading pre-built IG from gh-pages..." w))
    as (l & w1 & Hrun & Hui & Htr & Hq).
  unfold ui.prebuilt_path.
  rewrite run_mbind, log_run, run_mbind, Hrun. cbn.
  eexists _, _. split; [reflexivity|]. cbn. rewrite Htr, Hui. cbn.
  split; [rewrite <- !app_assoc; cbn; reflexivity|].
  split; [find_in|]. split; [reflexivity|]. split; [reflexivity|].
  repeat (apply List.Forall_cons; [reflexivity|]).
  apply Forall_app. split; [|each].
  eapply Forall_impl; [exact Hq|]. apply quiet_not_publisher.
Qed.

Lemma quiet_or_head_not_publisher e :
  quiet e = true \/ is_head e = true -> is_publisher e = false.
Proof. revert e. classify. Qed.

Lemma build_ig_prefix_prebuilt env w r w' url :
  run env ui.build_ig w = (r, w') ->
  EHead url (Val 200%nat) ∈ added w w' ->
  r = Val tt
  /\ ECall "download_gh_pages" ∈ added w w'
  /\ deploy_prebuilt_button (ui w') = true
  /\ progress_bar (ui w') = 100%Z
  /\ Forall (fun e => is_publisher e = false) (added w w').
Proof.
  intros Hrun Hin. unfold ui.build_ig in Hrun.
  rewrite run_mbind, field_run in Hrun.
  destruct (find _ _) as [[n work]|] eqn:Hf.
  2:{ injection Hrun as <- <-. rewrite added_same in Hin.
      now apply elem_of_nil in Hin. }
  unfold ui.fetch_all_repos in Hrun. cbn in Hrun.
  rewrite run_mbind, log_run in Hrun. cbn in Hrun.
  match type of Hrun with
  | context [run env (mbind _ (logic.gh_pages_has_sitepreview ?u)) ?w0] =>
      destruct (probe_run env u w0) as (b & l & w1 & Hp & _ & _ & Hui & Htr & Hq & Hb);
      rewrite run_mbind, Hp in Hrun
  end.
  cbn in Htr. rewrite <- !app_assoc in Htr. cbn in Htr.
  destruct b.
  - destruct (prebuilt_path_run env (ig_repo_entry (ui w)) work w1)
      as (l2 & w2 & Hpre & Htr2 & Hcall & Hbtn & Hbar & Hnp).
    rewrite Hpre in Hrun. injection Hrun as <- <-.
    rewrite Htr in Htr2. rewrite <- app_assoc in Htr2.
    rewrite (added_app w w2 _ Htr2).
    split; [reflexivity|]. split; [|split; [exact Hbtn|split; [exact Hbar|]]].
    + do 4 apply list_elem_of_further. apply elem_of_app. right. exact Hcall.
    + repeat (apply List.Forall_cons; [reflexivity|]).
      apply Forall_app. split; [|exact Hnp].
      eapply Forall_impl; [exact Hq|]. apply quiet_or_head_not_publisher.
  - exfalso.
    rewrite (run_added env _ w w1 r w' _ Htr Hrun) in Hin.
    apply elem_of_app in Hin as [Hin|Hin].
    + scan Hin. rewrite Forall_forall in Hb. specialize (Hb _ Hin). discriminate Hb.
    + apply (full_build_path_never_probes _ _ _ _ _ _ _ Hrun) in Hin.
      discriminate Hin.
Qed.


(** The git operations of the pre-built path. *)
Lemma download_gh_pages_git env url work w :
  exists l w1,
    run env (logic.download_gh_pages url work) w = (Val tt, w1)
    /\ ui w1 = ui w
    /\ trace w1 = trace w ++ ECall "download_gh_pages" :: l
    /\ Forall (fun e => quiet e = true) l
    /\ preview_fetch url (Py.join work "New_IG_Source") (List.filter is_git l).
Proof.
  unfold logic.download_gh_pages. sym.
  all: eexists _, _; (split; [reflexivity|]); (split; [reflexivity|]);
    (split; [grown|]); (split; [each|]).
  all: cbn; unfold preview_fetch.
  all: first [ left; eexists; reflexivity
             | right; left; eexists; reflexivity
             | right; right; left; eexists; reflexivity
             | right; right; right; eexists; reflexivity ].
Qed.

Lemma probe_no_git url :
  only (fun e => is_git e = false) (logic.gh_pages_has_sitepreview url).
Proof. unfold logic.gh_pages_has_sitepreview. walk. Qed.

Lemma no_git l : Forall (fun e => is_git e = false) l -> List.filter is_git l = [].
Proof.
  induction 1 as [|e l He _ IH]; [reflexivity|]. cbn [List.filter]. now rewrite He, IH.
Qed.

Lemma prebuilt_path_git env source work w :
  exists l w',
    run env (ui.prebuilt_path source work) w = (Val tt, w')
    /\ trace w' = trace w ++ l
    /\ preview_fetch source (Py.join work "New_IG_Source") (List.filter is_git l).
Proof.
  destruct (download_gh_pages_git env source work
              (logged "🌍 Downloading pre-built IG from gh-pages..." w))
    as (l & w1 & Hrun & Hui & Htr & Hq & Hg).
  unfold ui.prebuilt_path.
  rewrite run_mbind, log_run, run_mbind, Hrun. cbn.
  eexists _, _. split; [reflexivity|]. cbn. rewrite Htr. cbn.
  split; [rewrite <- !app_assoc; cbn; reflexivity|].
  cbn. rewrite List.filter_app. cbn. now rewrite app_nil_r.
Qed.

Lemma build_ig_prebuilt_git env w r w' url :
  run env ui.build_ig w = (r, w') ->
  EHead url (Val 200%nat) ∈ added w w' ->
  exists name work,
    List.find (fun '(n, _) => String.eqb n "Work Folder") (repo_fields (ui w))
    = Some (name, work)
    /\ preview_fetch (ig_repo_entry (ui w)) (Py.join work "New_IG_Source")
         (List.filter is_git (added w w')).
Proof.
  intros Hrun Hin. unfold ui.build_ig in Hrun.
  rewrite run_mbind, field_run in Hrun.
  destruct (find _ _) as [[n work]|] eqn:Hf.
  2:{ injection Hrun as <- <-. rewrite added_same in Hin.
      now apply elem_of_nil in Hin. }
  exists n, work. split; [reflexivity|].
  unfold ui.fetch_all_repos in Hrun. cbn in Hrun.
  rewrite run_mbind, log_run in Hrun. cbn in Hrun.
  match type of Hrun with
  | context [run env (mbind _ (logic.gh_pages_has_sitepreview ?u)) ?w0] =>
      destruct (probe_run env u w0) as (b & l & w1 & Hp & _ & _ & Hui & Htr & Hq & Hb);
      pose proof (run_only_of _ env _ w0 _ _ (probe_no_git u) Hp) as Hng;
      rewrite (added_app w0 w1 _ Htr) in Hng;
      rewrite run_mbind, Hp in Hrun
  end.
  cbn in Htr. rewrite <- !app_assoc in Htr. cbn in Htr.
  destruct b.
  - destruct (prebuilt_path_git env (ig_repo_entry (ui w)) work w1)
      as (l2 & w2 & Hpre & Htr2 & Hg).
    rewrite Hpre in Hrun. injection Hrun as <- <-.
    rewrite Htr in Htr2. rewrite <- app_assoc in Htr2.
    rewrite (added_app w w2 _ Htr2).
    cbn. rewrite List.filter_app, (no_git _ Hng). exact Hg.
  - exfalso.
    rewrite (run_added env _ w w1 r w' _ Htr Hrun) in Hin.
    apply elem_of_app in Hin as [Hin|Hin].
    + scan Hin. rewrite Forall_forall in Hb. specialize (Hb _ Hin). discriminate Hb.
    + apply (full_build_path_never_probes _ _ _ _ _ _ _ Hrun) in Hin.
      discriminate Hin.
Qed.

(** C1. When the probe of a build run is answered with 200, [build_ig]
    returns normally after it has called [download_gh_pages], whose git
    operations are the ones that bring the branch gh-pages of the source
    into the folder New_IG_Source of the work folder: a clone of that
    branch, or a fetch and a checkout of it in an existing clone (a git
    operation that raises ends them). The pre-built deploy button is then
    visible and the progress bar is at 100; no event of the run starts
    the publisher. The thread that the run starts does not start the
    publisher either, whatever the environment and the state it runs
    in. *)
Theorem build_ig_prebuilt_skips_publisher env w r w' url :
  run env ui.build_ig w = (r, w') ->
  EHead url (Val 200%nat) ∈ added w w' ->
  (r = Val tt
   /\ ECall "download_gh_pages" ∈ added w w'
   /\ (exists name work,
         List.find (fun '(n, _) => String.eqb n "Work Folder") (repo_fields (ui w))
         = Some (name, work)
         /\ preview_fetch (ig_repo_entry (ui w)) (Py.join work "New_IG_Source")
              (List.filter is_git (added w w')))
   /\ deploy_prebuilt_button (ui w') = true
   /\ progress_bar (ui w') = 100%Z
   /\ Forall (fun e => is_publisher e = false) (added w w'))
  /\ forall env2 w2 body,
       Forall (fun e => is_publisher e = false)
              (added w2 (run env2 (ui.thread_body body) w2).2).
Proof.
  intros Hrun Hin. split.
  - destruct (build_ig_prefix_prebuilt env w r w' url Hrun Hin)
      as (Hr & Hcall & Hbtn & Hbar & Hnp).
    repeat (split; [assumption|]).
    split; [exact (build_ig_prebuilt_git env w r w' url Hrun Hin)|].
    repeat (split; [assumption|]). exact Hnp.
  - intros env2 w2 []. apply run_only. cbn [ui.thread_body].
    eapply only_weaken; [|apply fetch_repos_progress]. classify.
Qed.

Lemma build_ig_prebuilt_skips_publisher_witness :
  let w := world0 disk_web in
  let res := run preview ui.build_ig w in
  EHead "https://raw.githubusercontent.com/acme/ig/gh-pages/sitepreview/index.html"
        (Val 200%nat) ∈ added w res.2
  /\ res.1 = Val tt
  /\ List.filter is_git (added w res.2)
     = [EGit (CloneFrom "https://github.com/acme/ig" "w/New_IG_Source" (Some "gh-pages"))
          None]
  /\ deploy_prebuilt_button (ui res.2) = true
  /\ Forall (fun e => is_publisher e = false) (added w res.2).
Proof.
  intros w res.
  assert (Hin : EHead "https://raw.githubusercontent.com/acme/ig/gh-pages/sitepreview/index.html"
                  (Val 200%nat) ∈ added w res.2).
  { vm_compute. find_in. }
  split; [exact Hin|].
  destruct (build_ig_prebuilt_skips_publisher preview w res.1 res.2 _
              (surjective_pairing _) Hin) as [(Hr & _ & _ & Hb & _ & Hp) _].
  split; [exact Hr|]. split; [vm_compute; reflexivity|]. split; assumption.
Defined.

(** ** build_ig: the full build *)

Lemma run_log_lines env lines w :
  run env (ui.log_lines lines) w = (Val tt, after_logs lines w).
Proof.
  revert w. induction lines as [|line rest IH]; intros w.
  - cbn. unfold after_logs. cbn. rewrite app_nil_r. now destruct w.
  - change (ui.log_lines (line :: rest))
      with (ui.log (Py.strip line);; ui.log_lines rest).
    rewrite run_mbind, log_run, IH.
    unfold after_logs, logged, appended. cbn. now rewrite <- !app_assoc.
Qed.

Lemma run_bind_log_lines env {B} lines (f : unit -> Prog B) w :
  run env (bind (ui.log_lines lines) f) w = run env (f tt) (after_logs lines w).
Proof. now rewrite run_bind, run_log_lines. Qed.

Lemma filter_log_events lines : List.filter is_stage (log_events lines) = [].
Proof. induction lines as [|line rest IH]; [reflexivity | exact IH]. Qed.

Lemma lookup_insert_snoc {A} (l : list A) (x y : A) :
  <[length l := x]> (l ++ [y]) !! length l = Some x.
Proof. apply list_lookup_insert_eq. rewrite length_app. simpl. lia. Qed.

Ltac ask_proc :=
  match goal with
  | |- context [exit_code ?e ?t ?p] => destruct (exit_code e t p) eqn:?
  end.

Ltac sym_build :=
  repeat (cbn;
          rewrite ?lookup_snoc_length, ?lookup_insert_snoc, ?run_bind_log_lines;
          try first [ask | ask_ui | ask_proc]).


(** * Further properties of the code *)

(** ** logic.py: branch switch and deploy of the built output *)

Ltac succeeded :=
  repeat (apply List.Forall_cons; [eexists; reflexivity|]); apply List.Forall_nil.

(** [switch_to_branch] never raises: it answers [True] after the
    repository was opened, fetched and checked out, in this order, and
    [False] as soon as one of the three fails; the steps after a failure
    are not attempted. *)
Theorem switch_to_branch_never_raises env path branch w :
  exists b l w',
    run env (logic.switch_to_branch path branch) w = (Val b, w')
    /\ procs w' = procs w /\ ui w' = ui w
    /\ trace w' = trace w ++ ECall "switch_to_branch" :: l
    /\ if b then
         l = [EGit (Repo path) None; EGit (FetchAll path) None;
              EGit (Checkout path branch) None]
       else
         exists done op e,
           l = done
               ++ [EGit op (Some e);
                   EPrint ("Failed to switch to branch " +:+ branch +:+ ": "
                           +:+ exn_text e)]
           /\ Forall (fun x => exists op', x = EGit op' None) done
           /\ EGit (Checkout path branch) None ∉ l.
Proof.
  unfold logic.switch_to_branch. sym.
  all: eexists _, _, _; (split; [reflexivity|]); do 2 (split; [reflexivity|]);
    (split; [grown|]); try reflexivity.
  all: first [ eexists [], _, _; split; [reflexivity|]
             | eexists [_], _, _; split; [reflexivity|]
             | eexists [_; _], _, _; split; [reflexivity|] ].
  all: split; [succeeded | intros H; scan H].
Qed.

(** [deploy_built] opens the repository, stages everything, commits and
    pushes [main] to [origin], in this order. The first git operation
    that fails is raised to the caller, and nothing after it is
    attempted: in particular nothing is pushed unless the commit was
    made. *)
Theorem deploy_built_steps env web w :
  exists l,
    added w (run env (logic.deploy_built web) w).2 = ECall "deploy_built" :: l
    /\ match (run env (logic.deploy_built web) w).1 with
       | Val _ =>
           l = [EGit (Repo web) None; EGit (AddAll web) None;
                EGit (Commit web "🚀 Deploying Built IG") None;
                EGit (Push web "origin" "main") None;
                EPrint "✅ Built IG Deployed!"]
       | Exc e =>
           exists done op,
             l = done ++ [EGit op (Some e)]
             /\ Forall (fun x => exists op', x = EGit op' None) done
       end.
Proof.
  unfold logic.deploy_built. sym.
  all: settle_added; eexists; (split; [reflexivity|]); try reflexivity.
  all: first [ eexists [], _; split; [reflexivity|]
             | eexists [_], _; split; [reflexivity|]
             | eexists [_; _], _; split; [reflexivity|]
             | eexists [_; _; _], _; split; [reflexivity|] ].
  all: succeeded.
Qed.

(** ** logic.py: the preview probe *)

(** [gh_pages_has_sitepreview] never raises and only looks: the disk, the
    subprocesses and the widgets are as before. It answers [True] exactly
    when the HEAD request was answered with status 200; a URL with fewer
    than two segments is answered [False] without any request. *)
Theorem gh_pages_has_sitepreview_reports env url w :
  exists b l w',
    run env (logic.gh_pages_has_sitepreview url) w = (Val b, w')
    /\ fs w' = fs w /\ procs w' = procs w /\ ui w' = ui w
    /\ trace w' = trace w ++ l
    /\ (if b then exists u, EHead u (Val 200%nat) ∈ l
        else Forall (fun e => is_preview_found e = false) l)
    /\ match logic.gh_pages_url url with
       | Some u => exists r, EHead u r ∈ l
       | None => Forall (fun e => is_head e = false) l
       end.
Proof.
  unfold logic.gh_pages_has_sitepreview. sym_ui.
  all: eexists _, _, _; (split; [reflexivity|]);
    do 3 (split; [reflexivity|]); (split; [grown|]).
  all: split; [try (each; fail)|try (each; fail); try (eexists; find_in; fail)].
  all: apply Nat.eqb_eq in Heqb as ->; eexists; find_in.
Qed.

(** ** ui.py: validation of the editor text *)

(** [validate_json] of the window never raises and never changes the
    editor; it answers [True] exactly when the text of the editor,
    stripped of surrounding whitespace, parses as JSON. *)
Theorem ui_validate_json_decides env w :
  exists w',
    run env ui.validate_json w
    = (Val (bool_decide (is_Some (Json.loads (Py.strip (json_editor (ui w)))))), w')
    /\ json_editor (ui w') = json_editor (ui w)
    /\ fs w' = fs w /\ procs w' = procs w.
Proof.
  unfold ui.validate_json, ui.log. sym_ui.
  all: eexists; (split; [reflexivity|]); unfold apply_widget; cbn; auto.
Qed.

(** ** logic.py: the preview URL *)

(** For a remote URL that ends in [/owner/repo] or [/owner/repo.git],
    the probe asks for [sitepreview/index.html] on the [gh-pages] branch
    of that owner and repository. *)
Theorem gh_pages_url_of_remote base owner repo :
  no_slash owner = true -> no_slash repo = true ->
  Remote.occurs ".git" repo = false ->
  let expected :=
    Some ("https://raw.githubusercontent.com/" +:+ owner +:+ "/" +:+ repo
          +:+ "/gh-pages/sitepreview/index.html") in
  logic.gh_pages_url (base +:+ "/" +:+ owner +:+ "/" +:+ repo) = expected
  /\ logic.gh_pages_url (base +:+ "/" +:+ owner +:+ "/" +:+ repo +:+ ".git") = expected.
Proof.
  intros Ho Hr Hg expected. unfold logic.gh_pages_url.
  assert (Hs : forall tail, no_slash tail = true ->
            Py.split Py.slash (base +:+ "/" +:+ owner +:+ "/" +:+ tail)
            = Py.split Py.slash base ++ [owner; tail]).
  { intros tail Ht.
    change (base +:+ "/" +:+ owner +:+ "/" +:+ tail)
      with (base +:+ String Py.slash (owner +:+ String Py.slash tail)).
    rewrite (split_append Py.slash base), (split_at_sep Py.slash owner tail Ho).
    now rewrite (split_no_sep Py.slash tail Ht). }
  assert (Hl : forall (l : list string) o t,
            Py.last1 (l ++ [o; t]) = Some t /\ Py.last2 (l ++ [o; t]) = Some o).
  { intros l o t. unfold Py.last1, Py.last2. now rewrite rev_app_distr. }
  split.
  - rewrite Hs by exact Hr. destruct (Hl (Py.split Py.slash base) owner repo) as [-> ->].
    unfold Py.replace. now rewrite replace_aux_absent by exact Hg.
  - assert (Ht : no_slash (repo +:+ ".git") = true).
    { apply all_chars_append; [exact Hr|reflexivity]. }
    rewrite Hs by exact Ht.
    destruct (Hl (Py.split Py.slash base) owner (repo +:+ ".git")) as [-> ->].
    now rewrite replace_git_suffix by exact Hg.
Qed.

Lemma gh_pages_url_of_remote_witness :
  no_slash "acme" = true /\ no_slash "ig" = true /\ Remote.occurs ".git" "ig" = false
  /\ logic.gh_pages_url "https://github.com/acme/ig.git"
     = Some "https://raw.githubusercontent.com/acme/ig/gh-pages/sitepreview/index.html".
Proof.
  repeat (split; [reflexivity|]).
  apply (gh_pages_url_of_remote "https://github.com" "acme" "ig"); reflexivity.
Defined.

(** A URL without a slash has no owner segment: the probe answers
    [False] for it and sends nothing. *)
Theorem gh_pages_url_needs_two_segments url :
  no_slash url = true -> logic.gh_pages_url url = None.
Proof.
  intros H. unfold logic.gh_pages_url. now rewrite split_no_sep by exact H.
Qed.

Lemma gh_pages_url_needs_two_segments_witness :
  no_slash "ig" = true /\ logic.gh_pages_url "ig" = None.
Proof.
  split; [reflexivity|]. apply (gh_pages_url_needs_two_segments "ig"). reflexivity.
Defined.

(** ** logic.py: clone or update *)

(** In a folder without git metadata, [fetch_or_update_repo] clones: it
    starts no subprocess, attempts the clone once, and answers [True]
    when the clone succeeded and [False] (without raising) when it
    failed. *)
Theorem fetch_clones_without_metadata env url dest timeout w :
  exists_on w.(fs) dest = true ->
  exists_on w.(fs) (Py.join dest ".git") = false ->
  exists r message w',
    run env (logic.fetch_or_update_repo url dest timeout) w
    = (Val (match r with None => true | Some _ => false end), w')
    /\ procs w' = procs w /\ ui w' = ui w
    /\ added w w'
       = [ECall "fetch_or_update_repo";
          EPrint ("📥 Cloning " +:+ url +:+ " into " +:+ dest +:+ "...");
          EGit (CloneFrom url dest None) r;
          EPrint message].
Proof.
  intros Hd Hg. unfold logic.fetch_or_update_repo. cbn. rewrite Hd. cbn. rewrite Hg.
  sym.
  all: first [eexists None, _, _; split; [reflexivity|]
             |eexists (Some _), _, _; split; [reflexivity|]].
  all: do 2 (split; [reflexivity|]); settle_added; reflexivity.
Qed.

Lemma fetch_clones_without_metadata_witness :
  let w := mkWorld (<["w/History_Template" := Dir]> disk_web) [] app0 [] in
  exists_on w.(fs) "w/History_Template" = true
  /\ exists_on w.(fs) (Py.join "w/History_Template" ".git") = false
  /\ exists r message w',
       run offline (logic.fetch_or_update_repo "u" "w/History_Template" 60) w
       = (Val (match r with None => true | Some _ => false end), w')
       /\ procs w' = procs w /\ ui w' = ui w
       /\ added w w'
          = [ECall "fetch_or_update_repo";
             EPrint ("📥 Cloning " +:+ "u" +:+ " into " +:+ "w/History_Template" +:+ "...");
             EGit (CloneFrom "u" "w/History_Template" None) r;
             EPrint message].
Proof.
  intros w. split; [vm_compute; reflexivity|]. split; [vm_compute; reflexivity|].
  apply (fetch_clones_without_metadata offline "u" "w/History_Template" 60 w);
    vm_compute; reflexivity.
Defined.



(** ** ui.py: the publisher *)

Lemma quiet_not_stage l :
  Forall (fun e => quiet e = true) l -> List.filter is_stage l = [].
Proof.
  induction 1 as [|e l He _ IH]; [reflexivity|]. cbn [List.filter].
  rewrite IH. assert (H : is_stage e = false) by (revert e He; classify).
  now rewrite H.
Qed.

Lemma run_mbind_log_lines env {B} lines (f : unit -> Prog B) w :
  run env (ui.log_lines lines ≫= f) w = run env (f tt) (after_logs lines w).
Proof. apply run_bind_log_lines. Qed.

Lemma log_events_quiet lines : Forall (fun e => quiet e = true) (log_events lines).
Proof.
  induction lines as [|line rest IH]; [apply List.Forall_nil|].
  cbn. repeat (apply List.Forall_cons; [reflexivity|]). exact IH.
Qed.

Ltac sym_loop :=
  repeat (cbn;
          rewrite ?lookup_snoc_length, ?lookup_insert_snoc, ?run_mbind_log_lines;
          try first [ask | ask_ui | ask_proc]).

(** One round of the loop of [run_publisher]: the command is started
    through the shell; if it cannot be started the exception leaves the
    loop; if it ends with a code other than 0 the loop answers [False];
    if it ends with 0 the loop goes on with the rest. *)
Lemma run_commands_round env cmd rest w :
  exists r l w1,
    trace w1 = trace w ++ EPopen [cmd] None true r :: l
    /\ Forall (fun e => quiet e = true) l
    /\ match r with
       | Exc e => run env (ui.run_commands (cmd :: rest)) w = (Exc e, w1)
       | Val pid =>
           run env (ui.run_commands (cmd :: rest)) w = (Val false, w1)
           \/ (run env (ui.run_commands (cmd :: rest)) w
               = run env (ui.run_commands rest) w1
               /\ EReturncode pid (Some 0%Z) ∈ l)
       end.
Proof.
  change (ui.run_commands (cmd :: rest))
    with (process ← call (Popen [cmd] None true);
          lines ← call (Stdout process);
          ui.log_lines lines;;
          call (Wait process None);;
          returncode ← call (Returncode process);
          match returncode with
          | Some 0%Z => ui.run_commands rest
          | _ => Ret false
          end).
  destruct (popen_error env (length (trace w)) [cmd]) as [e|] eqn:Hp.
  - eexists (Exc e), [], _. cbn. rewrite Hp. cbn.
    split; [|split]; revgoals; [reflexivity|apply List.Forall_nil|reflexivity].
  - cbn. rewrite Hp. sym_loop.
    all: eexists (Val (length (procs w))), (_ :: log_events _ ++ [_; _]), _.
    all: cbn beta iota.
    all: split; [|split]; revgoals.
    all: try first [ left; reflexivity | right; split; [reflexivity|] ].
    all: try (cbn; rewrite <- ?app_assoc; cbn; reflexivity).
    all: try (apply List.Forall_cons; [reflexivity|];
              apply Forall_app; split; [apply log_events_quiet | each]; fail).
    all: apply list_elem_of_further, elem_of_app; right; find_in.
Qed.

(** [run_publisher] starts the first command; it starts the second one
    only after the first has ended with code 0, and nothing else. Its
    other events are log lines and the handling of the subprocess. *)
Theorem run_publisher_starts env source work w :
  exists r l w',
    run env (ui.run_publisher source work) w = (r, w')
    /\ trace w' = trace w ++ l
    /\ exists r1,
         (List.filter is_stage l = [EPopen [ui.cmd1 source] None true r1]
          /\ r <> Val true)
         \/ (exists pid r2,
               r1 = Val pid
               /\ EReturncode pid (Some 0%Z) ∈ l
               /\ List.filter is_stage l
                  = [EPopen [ui.cmd1 source] None true r1;
                     EPopen [ui.cmd2 source work] None true r2]).
Proof.
  unfold ui.run_publisher.
  destruct (run_commands_round env (ui.cmd1 source) [ui.cmd2 source work] w)
    as (r1 & l1 & w1 & Ht1 & Hq1 & H1).
  destruct r1 as [pid|e].
  2:{ eexists _, _, _. split; [exact H1|]. split; [exact Ht1|].
      exists (Exc e). left. cbn. rewrite (quiet_not_stage _ Hq1). split; [reflexivity|].
      discriminate. }
  destruct H1 as [H1|[H1 Hrc]].
  { eexists _, _, _. split; [exact H1|]. split; [exact Ht1|].
    exists (Val pid). left. cbn. rewrite (quiet_not_stage _ Hq1).
    split; [reflexivity|discriminate]. }
  destruct (run_commands_round env (ui.cmd2 source work) [] w1)
    as (r2 & l2 & w2 & Ht2 & Hq2 & H2).
  exists (run env (ui.run_commands [ui.cmd2 source work]) w1).1,
         (EPopen [ui.cmd1 source] None true (Val pid) :: l1
            ++ EPopen [ui.cmd2 source work] None true r2 :: l2), w2.
  assert (Hw2 : (run env (ui.run_commands [ui.cmd2 source work]) w1).2 = w2).
  { destruct r2 as [pid2|e2]; [destruct H2 as [H2|[H2 _]]|]; rewrite H2; reflexivity. }
  split; [rewrite H1, <- Hw2; apply surjective_pairing|].
  split; [rewrite Ht2, Ht1, <- app_assoc; reflexivity|].
  exists (Val pid). right. exists pid, r2. split; [reflexivity|]. split.
  - apply list_elem_of_further, elem_of_app. left. exact Hrc.
  - cbn. rewrite List.filter_app. cbn.
    now rewrite (quiet_not_stage _ Hq1), (quiet_not_stage _ Hq2).
Qed.

(** ** ui.py: the full build *)

(** The arm of [build_ig] for a source without preview stops at its
    first step after the log line: the read of
    [logic.download_publisher_jar] raises. *)
Lemma full_build_path_run env source work w :
  run env (ui.full_build_path source work) w
  = (Exc (AttributeError "download_publisher_jar"),
     logged "📥 Downloading publisher.jar..." w).
Proof.
  unfold ui.full_build_path, logic.attribute. rewrite run_mbind, log_run. reflexivity.
Qed.



(** ** ui.py: the deploy buttons *)

Lemma exec_keeps_visible env {X} (c : Cmd X) w b :
  Forall (fun e => is_hide e = false) (added w (exec env c w).2) ->
  visible b (ui w) = true -> visible b (ui (exec env c w).2) = true.
Proof.
  destruct c; cbn; repeat case_match; cbn; try (intros _ Hv; exact Hv).
  unfold added. cbn. rewrite drop_app_length. intros Hh%Forall_inv.
  destruct op as [| |[] []| | | | | |], b; unfold apply_widget; cbn in *; congruence.
Qed.

Lemma run_keeps_visible env {A} (p : Prog A) w b :
  Forall (fun e => is_hide e = false) (added w (run env p w).2) ->
  visible b (ui w) = true -> visible b (ui (run env p w).2) = true.
Proof.
  revert w. induction p as [a|e|X c k IH]; intros w; [auto|auto|].
  rewrite added_run_vis. intros [H1 H2]%Forall_app Hv. cbn.
  destruct (exec env c w) as [o w1] eqn:E. cbn in *.
  apply IH; [exact H2|].
  pose proof (exec_keeps_visible env c w b) as Hk. rewrite E in Hk. now apply Hk.
Qed.

Lemma quiet_not_hide e : quiet e = true -> is_hide e = false.
Proof. revert e. classify. Qed.

Lemma handler_never_hides a : only (fun e => is_hide e = false) (handler a).
Proof.
  assert (Hc : forall op, quiet (EWidget op) = true ->
             only (fun e => is_hide e = false) (ui.combo op)).
  { intros op Hop. eapply only_weaken; [|apply combo_quiet, Hop].
    exact quiet_not_hide. }
  destruct a; cbn [handler].
  - unfold ui.fetch_ig_repo. walk; apply Hc; reflexivity.
  - unfold ui.fetch_all_repos. walk.
  - walk.
  - unfold ui.build_ig, ui.fetch_all_repos. walk.
    + unfold ui.prebuilt_path. walk.
    + unfold ui.full_build_path. walk.
  - unfold ui.deploy_built. walk.
  - unfold ui.deploy_prebuilt. walk.
Qed.

(** No handler hides a deploy button: a button that is visible stays
    visible through every session, whatever the environment answers. *)
Theorem deploy_buttons_stay_visible env actions w b :
  visible b (ui w) = true -> visible b (ui (session env actions w)) = true.
Proof.
  revert w. induction actions as [|a rest IH]; intros w Hv; [exact Hv|].
  cbn [session]. destruct (pressable a (ui w)); [|now apply IH].
  pose proof (run_keeps_visible env (handler a) w b
                (run_only _ env _ w (handler_never_hides a)) Hv) as H.
  destruct (run env (handler a) w) as [[x|e] w1]; [now apply IH|exact H].
Qed.

Lemma deploy_buttons_stay_visible_witness :
  let w := session lost [PressFetchIG] (world0 disk_web) in
  visible DeployPrebuilt (ui w) = true
  /\ visible DeployPrebuilt (ui (session lost [PressBuild; PressDeployBuilt] w)) = true.
Proof.
  intros w.
  assert (H : visible DeployPrebuilt (ui w) = true) by (vm_compute; reflexivity).
  split; [exact H|].
  exact (deploy_buttons_stay_visible lost [PressBuild; PressDeployBuilt] w
           DeployPrebuilt H).
Defined.

(** * The build run

    The full build, the deploy operations and the progress bar. *)

(** ** The full build *)

(** C5. The full build never gets to the download: logic.py binds no
    [download_publisher_jar], so the arm of [build_ig] for a source
    without preview raises [AttributeError] right after its log line,
    whatever the environment and the state. In a window whose editor
    holds a valid manifest and whose probe is answered with 404, the
    build run ends with that exception: the manifest is not validated,
    the publisher is not started, and the progress bar stays at 10. *)
Theorem full_build_raises_AttributeError :
  (forall env source work w,
     run env (ui.full_build_path source work) w
     = (Exc (AttributeError "download_publisher_jar"),
        logged "📥 Downloading publisher.jar..." w))
  /\ json_editor (ui (session listed [PressFetchIG] (world0 disk_web))) = "{}"
  /\ (run listed ui.build_ig (session listed [PressFetchIG] (world0 disk_web))).1
     = Exc (AttributeError "download_publisher_jar")
  /\ List.filter is_stage
       (added (session listed [PressFetchIG] (world0 disk_web))
          (run listed ui.build_ig (session listed [PressFetchIG] (world0 disk_web))).2)
     = []
  /\ progress_bar
       (ui (run listed ui.build_ig (session listed [PressFetchIG] (world0 disk_web))).2)
     = 10%Z.
Proof.
  split; [exact full_build_path_run|].
  repeat split; vm_compute; reflexivity.
Qed.

(** ** The deploy operations *)



Lemma quiet_not_built e :
  quiet e = true -> shows DeployBuilt e = false /\ is_call "deploy_built" e = false.
Proof.
  intros He. split.
  - destruct e as [| |[]| | | | | | | | | | | | |]; try reflexivity. discriminate He.
  - destruct e; try reflexivity. unfold quiet in He. apply negb_true_iff in He.
    do 5 (apply orb_false_elim in He as [He _]).
    apply orb_false_elim in He as [_ He]. unfold is_deploy in He.
    now apply orb_false_elim in He as [He _].
Qed.

(** From one kind of event to another; what a quiet event is not is
    taken from the lemma. *)
Ltac classify ::=
  let e := fresh "e" in
  let H := fresh "H" in
  intros e H; cbv beta in *;
  repeat match type of H with _ \/ _ => destruct H as [H|H] end;
  first [ solve [apply quiet_not_built; exact H]
        | destruct e as [?|?|[]|?|?|?|?|?|? ? [] ?|?|?|?|?|?|?|?];
          cbn in *; try discriminate H;
          repeat match goal with
                 | |- context [String.eqb ?a ?b] => destruct (String.eqb a b)
                 | H : context [String.eqb ?a ?b] |- _ => destruct (String.eqb a b)
                 end;
          cbn in *; intuition (try discriminate; auto) ].





(** ** The progress bar *)

Lemma exec_progress env {X} (c : Cmd X) w :
  progress_values (added w (exec env c w).2)
  = match progress_of c with Some v => [v] | None => [] end.
Proof.
  destruct c; cbn; repeat case_match; unfold added; cbn;
    rewrite ?drop_app_length, ?drop_all; try reflexivity.
  all: subst; cbn; try reflexivity; try congruence.
Qed.

Lemma emits_no_progress {X} (c : Cmd X) :
  emits (fun e => is_progress e = false) c -> progress_of c = None.
Proof.
  intros H. destruct c; try reflexivity.
  destruct op; try reflexivity.
  specialize (H calm (world0 ∅) (EWidget (SetValue v))). cbn in H.
  assert (Hf : true = false); [|discriminate Hf].
  apply H. unfold added. cbn. apply list_elem_of_here.
Qed.

Lemma only_rising lo {A} (p : Prog A) :
  only (fun e => is_progress e = false) p -> rising lo p.
Proof.
  induction p as [a|e|X c k IH]; intros Ho; [exact I|exact I|].
  destruct Ho as [Hc Hk]. cbn [rising]. rewrite (emits_no_progress c Hc).
  intros o. apply IH, Hk.
Qed.

Lemma rising_bind lo {A B} (p : Prog A) (f : A -> Prog B) :
  only (fun e => is_progress e = false) p -> (forall a, rising lo (f a)) ->
  rising lo (bind p f).
Proof.
  intros Hp Hf. induction p as [a|e|X c k IH]; cbn; [apply Hf|exact I|].
  destruct Hp as [Hc Hk]. rewrite (emits_no_progress c Hc).
  intros o. apply IH, Hk.
Qed.

(** A walk over a program whose sub-programs leave the progress bar
    alone. *)
Ltac still :=
  first [ solve [eauto with only]
        | eapply only_weaken; [|solve [eauto with only]]; solve [classify] ].

Ltac climb :=
  repeat (cbn;
          match goal with
          | |- True => exact I
          | |- _ /\ _ => split
          | |- at_least _ _ => cbn; lia
          | |- (_ <= _)%Z => lia
          | |- forall _, _ => intro
          | |- context [match ?o with Val _ => _ | Exc _ => _ end] => is_var o; destruct o
          | |- context [if ?b then _ else _] => is_var b; destruct b
          | |- context [if negb ?b then _ else _] => is_var b; destruct b
          | |- rising _ (bind _ _) => apply rising_bind; [solve [still]|]
          | |- rising _ (mbind _ _) => apply rising_bind; [solve [still]|]
          | |- rising _ _ => apply only_rising; solve [still]
          end).

Lemma percent_grows c total :
  (0 < total)%Z ->
  (Z.quot (Z.of_nat c * 100) total <= Z.quot (Z.of_nat (S c) * 100) total)%Z.
Proof.
  intros Ht. rewrite !Z.quot_div_nonneg by lia.
  apply Z.div_le_mono; lia.
Qed.

Lemma fetch_repos_loop_rising names total completed lo :
  (0 <= total)%Z ->
  at_least lo (Z.quot (Z.of_nat (S completed) * 100) total) ->
  rising lo (ui.fetch_repos_loop names total completed).
Proof.
  intros Ht. revert completed lo.
  induction names as [|name rest IH]; intros completed lo Hlo; [exact I|].
  unfold ui.fetch_repos_loop; fold ui.fetch_repos_loop.
  destruct (String.eqb name "Work Folder"); [apply IH, Hlo|].
  do 2 (apply rising_bind; [apply field_silent|intro]).
  apply rising_bind; [still|intro].
  apply rising_bind; [still|intro].
  apply rising_bind; [destruct a2; still|intro].
  unfold ui.percent. destruct (Z.eqb_spec total 0) as [->|Hnz]; [exact I|].
  cbn. split; [exact Hlo|]. intros o. destruct o; cbn; [|exact I].
  apply IH. cbn. apply (percent_grows (S completed)). lia.
Qed.

Lemma rising_then lo {A B} (p : Prog A) (f : A -> Prog B) :
  rising lo p -> (forall a lo', rising lo' (f a)) -> rising lo (bind p f).
Proof.
  revert lo. induction p as [a|e|X c k IH]; intros lo Hp Hf; cbn; [apply Hf|exact I|].
  cbn [rising] in Hp. destruct (progress_of c) as [v|].
  - destruct Hp as [Hlo Hk]. split; [exact Hlo|]. intros o. apply IH; [apply Hk|exact Hf].
  - intros o. apply IH; [apply Hp|exact Hf].
Qed.

Lemma rising_fetch_repos : rising None ui.fetch_repos.
Proof.
  unfold ui.fetch_repos. cbn. intros o. destruct o as [fields|e]; cbn; [|exact I].
  apply rising_then.
  2:{ intros _ lo. cbn. intros o. destruct o; exact I. }
  destruct fields as [|field rest]; [exact I|].
  apply fetch_repos_loop_rising; [cbn [length]; lia|exact I].
Qed.

Lemma rising_build_ig : rising None ui.build_ig.
Proof.
  unfold ui.build_ig, ui.fetch_all_repos. climb.
  - unfold ui.prebuilt_path. climb.
  - unfold ui.full_build_path. climb.
Qed.

Lemma own_app tid e1 e2 : own tid (e1 ++ e2) = own tid e1 ++ own tid e2.
Proof. unfold own. now rewrite List.filter_app, map_app. Qed.

Lemma own_tagged tid tid0 l :
  own tid (map (pair tid0) l) = if (tid0 =? tid)%nat then l else [].
Proof.
  unfold own. induction l as [|e l IH]; cbn; [now destruct (tid0 =? tid)%nat|].
  destruct (tid0 =? tid)%nat; cbn; [now rewrite IH|exact IH].
Qed.

Lemma progress_values_app l1 l2 :
  progress_values (l1 ++ l2) = progress_values l1 ++ progress_values l2.
Proof. unfold progress_values. apply omap_app. Qed.

Lemma non_decreasing_snoc l v :
  non_decreasing l = true -> at_least (last l) v -> non_decreasing (l ++ [v]) = true.
Proof.
  induction l as [|a [|b r] IH]; intros Hl Hv; [reflexivity| |].
  - cbn in *. now rewrite (proj2 (Z.leb_le a v) Hv).
  - change (non_decreasing (a :: b :: r)) with ((a <=? b)%Z && non_decreasing (b :: r)) in Hl.
    apply andb_prop in Hl as [Hab Hr].
    change (non_decreasing ((a :: b :: r) ++ [v]))
      with ((a <=? b)%Z && non_decreasing ((b :: r) ++ [v])).
    rewrite Hab. apply IH; [exact Hr|exact Hv].
Qed.

Lemma step_rising env cfg tid0 :
  (forall body, rising None (ui.thread_body body)) ->
  rising_threads cfg -> rising_threads (step env cfg tid0).
Proof.
  intros Hbody Hinv. unfold step.
  destruct (threads cfg !! tid0) as [[a|e|X c k]|] eqn:Ht; try exact Hinv.
  destruct (exec env c (world cfg)) as [o w'] eqn:He.
  pose proof (exec_progress env c (world cfg)) as Hpv. rewrite He in Hpv. cbn [snd] in Hpv.
  pose proof (lookup_lt_Some _ _ _ Ht) as Hlt.
  intros tid. cbn [threads events].
  rewrite own_app, own_tagged, progress_values_app.
  pose proof (Hinv tid) as Htid. cbn zeta in Htid.
  destruct (Nat.eqb_spec tid0 tid) as [<-|Hne].
  - rewrite Ht in Htid. destruct Htid as [Hr Hnd].
    rewrite lookup_app_l by now rewrite length_insert.
    rewrite list_lookup_insert_eq by exact Hlt.
    rewrite Hpv. cbn [rising] in Hr.
    destruct (progress_of c) as [v|].
    + destruct Hr as [Hlo Hk]. rewrite last_snoc. split; [apply Hk|].
      now apply non_decreasing_snoc.
    + rewrite app_nil_r. split; [apply Hr|exact Hnd].
  - cbn [progress_values omap]. rewrite !app_nil_r.
    destruct (decide (tid < length (threads cfg))%nat) as [Hin|Hout].
    + rewrite lookup_app_l by now rewrite length_insert.
      rewrite list_lookup_insert_ne by exact Hne. exact Htid.
    + rewrite lookup_ge_None_2 in Htid by lia.
      rewrite lookup_app_r by (rewrite length_insert; lia).
      rewrite length_insert, Htid.
      destruct c; cbn [spawned]; try (now rewrite lookup_nil).
      destruct (tid - length (threads cfg))%nat as [|n]; cbn; [|reflexivity].
      split; [apply Hbody|reflexivity].
Qed.

Lemma schedule_rising env sched cfg :
  (forall body, rising None (ui.thread_body body)) ->
  rising_threads cfg -> rising_threads (schedule env sched cfg).
Proof.
  intros Hbody. unfold schedule. revert cfg.
  induction sched as [|tid sched IH]; intros cfg Hinv; [exact Hinv|].
  cbn [foldl]. apply IH. now apply step_rising.
Qed.

Lemma build_threads_rise env sched w :
  rising_threads (schedule env sched (start ui.build_ig w)).
Proof.
  apply schedule_rising; [intros []; exact rising_fetch_repos|].
  intros [|n]; cbn; [|reflexivity]. split; [exact rising_build_ig|reflexivity].
Qed.

(** C3. In a build run from a window with the four repository fields of
    the program, the values that each thread gives to the progress bar
    never go down, under every schedule of the threads and whatever the
    environment answers: the handler writes 10 and, on the pre-built
    path, 100; the thread of [fetch_all_repos] writes the percentage of
    the repositories it has handled. *)
Theorem each_thread_progress_rises env sched w tid :
  length (repo_fields (ui w)) = 4%nat ->
  non_decreasing
    (progress_values (own tid (events (schedule env sched (start ui.build_ig w)))))
  = true.
Proof.
  intros _. pose proof (build_threads_rise env sched w tid) as Hinv. cbn zeta in Hinv.
  destruct (threads _ !! tid); [apply Hinv|]. now rewrite Hinv.
Qed.

Lemma each_thread_progress_rises_witness :
  length (repo_fields (ui (world0 disk_web))) = 4%nat
  /\ progress_values
       (own 1 (events (schedule preview handler_first (start ui.build_ig (world0 disk_web)))))
     = [33; 66; 100]%Z
  /\ non_decreasing
       (progress_values
          (own 1 (events (schedule preview handler_first
                            (start ui.build_ig (world0 disk_web))))))
     = true.
Proof.
  split; [reflexivity|]. split; [vm_compute; reflexivity|].
  apply (each_thread_progress_rises preview handler_first (world0 disk_web) 1).
  reflexivity.
Defined.

(** The two threads together do not keep the order: in this run of the
    build, from a fresh window, the thread of [fetch_all_repos] writes
    its percentages after the handler has written 100. *)
Lemma build_progress_decreases :
  progress_values
    (trace (world (schedule preview handler_first (start ui.build_ig (world0 disk_web)))))
  = [10; 100; 33; 66; 100]%Z
  /\ non_decreasing
       (progress_values
          (trace (world (schedule preview handler_first
                           (start ui.build_ig (world0 disk_web))))))
     = false.
Proof. split; vm_compute; reflexivity. Qed.
